(** * Audio extractor: the [/extract-audio] pipeline

    A shallow embedding of the request handler of the audio extractor
    (the ESM revision of [server.js]) and of the helpers it calls:
    [safeMkdir], [safeRmdir], [ffprobeJson], [getDurationSeconds],
    [downloadDriveFile], [uploadAndSign], [extractAudio] and the
    [POST /extract-audio] handler.

    JavaScript values are modelled as JSON values plus [undefined]
    ([option json]); numbers are IEEE-754 binary64 ([PrimFloat.float]);
    strings are ASCII text.  Effects (file system, subprocesses, network,
    clock, HTTP response) are threaded through a small state-and-exception
    monad that records a chronological trace of the calls made. *)

From Stdlib Require Import Bool List String Ascii PrimFloat Lia.
Import ListNotations.

#[local] Set Warnings "-register-all".
#[local] Open Scope list_scope.
#[local] Open Scope string_scope.

(** ** JavaScript values and the language built-ins the program uses *)

Module JS.

(** A parsed JSON value.  An object keeps its members in the order of the
    text; a name that occurs twice denotes its last occurrence, as
    [JSON.parse] has it. *)
Inductive json : Type :=
| JNull
| JBool (b : bool)
| JNum (n : float)
| JStr (s : string)
| JArr (l : list json)
| JObj (m : list (string * json)).

(** A thrown [Error] object: its [name] and its [message]. *)
Record jserror : Type := mkError { err_name : string; err_message : string }.

Definition Error (msg : string) : jserror := mkError "Error" msg.
Definition TypeError (msg : string) : jserror := mkError "TypeError" msg.

(** The outcome of a synchronous call that may throw. *)
Inductive result (A : Type) : Type :=
| Ok (a : A)
| Err (e : jserror).
Arguments Ok {A} a.
Arguments Err {A} e.

(** [Number.isFinite]. *)
Definition isFinite (x : float) : bool :=
  negb (PrimFloat.is_nan x || PrimFloat.is_infinity x).

(** [x > 0] on numbers. *)
Definition gt0 (x : float) : bool := PrimFloat.ltb 0%float x.

(** ToBoolean on strings and on values; [None] is [undefined]. *)
Definition truthy_string (s : string) : bool :=
  match s with EmptyString => false | String _ _ => true end.

Definition truthy_json (v : json) : bool :=
  match v with
  | JNull => false
  | JBool b => b
  | JNum n => negb (PrimFloat.eqb n 0%float || PrimFloat.is_nan n)
  | JStr s => truthy_string s
  | JArr _ | JObj _ => true
  end.

Definition truthy (v : option json) : bool :=
  match v with None => false | Some j => truthy_json j end.

(** [a || b]. *)
Definition or_else (a : option json) (b : json) : json :=
  match a with
  | Some j => if truthy_json j then j else b
  | None => b
  end.

(** [a ?? b]. *)
Definition nullish (a : option json) (b : json) : json :=
  match a with
  | None | Some JNull => b
  | Some j => j
  end.

(** Own property of an object literal, last occurrence first. *)
Fixpoint get (k : string) (m : list (string * json)) : option json :=
  match m with
  | [] => None
  | (k', v) :: r =>
      match get k r with
      | Some v' => Some v'
      | None => if String.eqb k' k then Some v else None
      end
  end.

Definition has_own (k : string) (m : list (string * json)) : bool :=
  match get k m with Some _ => true | None => false end.

(** [v.k] for the property names the program reads ([fileId], [format],
    [bitrateK], [sampleRate], [channels], [duration]): none of them is
    defined on a prototype, so only an object's own members answer. *)
Definition prop (v : json) (k : string) : option json :=
  match v with
  | JObj m => get k m
  | _ => None
  end.

(** [v?.k]. *)
Definition opt_prop (v : option json) (k : string) : option json :=
  match v with
  | None | Some JNull => None
  | Some j => prop j k
  end.

(** [String.prototype.toLowerCase] on ASCII text. *)
Definition lower_ascii (c : ascii) : ascii :=
  let n := nat_of_ascii c in
  if (Nat.leb 65 n && Nat.leb n 90)%bool then ascii_of_nat (n + 32) else c.

Fixpoint toLowerCase (s : string) : string :=
  match s with
  | EmptyString => EmptyString
  | String c r => String (lower_ascii c) (toLowerCase r)
  end.


(** [Error.prototype.toString]. *)
Definition Error_toString (e : jserror) : string :=
  match err_name e, err_message e with
  | EmptyString, msg => msg
  | name, EmptyString => name
  | name, msg => name ++ ": " ++ msg
  end.

(** [err?.message || String(err)]. *)
Definition error_text (e : jserror) : string :=
  if truthy_string (err_message e) then err_message e else Error_toString e.

(** *** [path.join] (POSIX) *)

(** [s.split("/")]. *)
Fixpoint split_slash (s : string) : list string :=
  match s with
  | EmptyString => [EmptyString]
  | String c r =>
      if Ascii.eqb c "/"%char then EmptyString :: split_slash r
      else match split_slash r with
           | [] => [String c EmptyString]
           | h :: t => String c h :: t
           end
  end.

(** The segment walk of [normalizeString]: empty and ["."] segments are
    dropped, [".."] removes the segment before it; above the root it is
    dropped for an absolute path and kept for a relative one.  [stack]
    holds the segments kept so far, last one first. *)
Fixpoint normalizeSegments (allowAboveRoot : bool) (segs stack : list string)
  : list string :=
  match segs with
  | [] => rev stack
  | seg :: r =>
      if (String.eqb seg "" || String.eqb seg ".")%bool
      then normalizeSegments allowAboveRoot r stack
      else if String.eqb seg ".." then
        match stack with
        | top :: below =>
            if String.eqb top ".."
            then normalizeSegments allowAboveRoot r (seg :: stack)
            else normalizeSegments allowAboveRoot r below
        | [] =>
            if allowAboveRoot
            then normalizeSegments allowAboveRoot r [seg]
            else normalizeSegments allowAboveRoot r []
        end
      else normalizeSegments allowAboveRoot r (seg :: stack)
  end.

Definition starts_with_slash (s : string) : bool :=
  match s with
  | String c _ => Ascii.eqb c "/"%char
  | EmptyString => false
  end.

Fixpoint ends_with_slash (s : string) : bool :=
  match s with
  | EmptyString => false
  | String c EmptyString => Ascii.eqb c "/"%char
  | String _ r => ends_with_slash r
  end.

(** [path.posix.normalize]. *)
Definition normalize (p : string) : string :=
  match p with
  | EmptyString => "."
  | _ =>
      let isAbsolute := starts_with_slash p in
      let trailingSeparator := ends_with_slash p in
      let body :=
        String.concat "/" (normalizeSegments (negb isAbsolute) (split_slash p) []) in
      match body with
      | EmptyString =>
          if isAbsolute then "/" else if trailingSeparator then "./" else "."
      | _ =>
          let body' := if trailingSeparator then body ++ "/" else body in
          if isAbsolute then "/" ++ body' else body'
      end
  end.

(** [path.join(a, b)] for two arguments. *)
Definition path_join (a b : string) : string :=
  match a, b with
  | EmptyString, EmptyString => "."
  | EmptyString, _ => normalize b
  | _, EmptyString => normalize a
  | _, _ => normalize (a ++ "/" ++ b)
  end.

End JS.
Export JS.

(** ** The environment and the effect monad *)

(** What the piped download does, as seen from the promise in
    [downloadDriveFile]: the source stream delivers chunks, ends, or fails;
    the destination write stream may fail. *)
Inductive stream_event : Type :=
| SrcData (chunk : string)
| SrcEnd
| SrcError (e : jserror)
| DestError (e : jserror).

(** The outcome of a subprocess: the paths it created and its standard
    output, or the error [execSync] / [execFileSync] throws. *)
Record exec_result : Type := mkExec {
  exec_created : list string;
  exec_outcome : result string
}.

(** How a (possibly asynchronous) computation ends: it returns, it throws
    (an async function rejects), or it never settles. *)
Inductive completion (A : Type) : Type :=
| Normal (a : A)
| Throw (e : jserror)
| Pending.
Arguments Normal {A} a.
Arguments Throw {A} e.
Arguments Pending {A}.

(** Everything the handler does not compute itself: the process
    environment, the clock, the file system, the two tools, the Drive and
    Cloud Storage clients, and three built-ins taken as given
    (number/string conversion and [JSON.parse]).  The synchronous calls
    return or throw ([result]); the three client calls give promises that
    the code awaits without a timeout, so they resolve, reject or never
    settle ([completion]). *)
Record World : Type := mkWorld {
  BUCKET : option string;
  StringToNumber : string -> float;
  NumberToString : float -> string;
  JSON_parse : string -> result json;
  Date_now : nat -> float;
  under : string -> string -> bool;
  mkdirSync : string -> result unit;
  rmSync : string -> result unit;
  statSync_size : string -> result float;
  execSync : string -> exec_result;
  execFileSync : string -> list string -> exec_result;
  drive_files_get : json -> completion (list stream_event);
  bucket_upload : string -> string -> string -> completion unit;
  getSignedUrl : string -> string -> float -> completion string
}.

(** The calls the handler makes, in the order it makes them. *)
Inductive event : Type :=
| EMkdir (p : string)
| ERm (p : string)
| EStat (p : string)
| EExecShell (command : string)
| EExecFile (file : string) (args : list string)
| EDriveGet (fileId : json)
| EPipe (outputPath : string) (written : string)
| EUpload (bucket localPath destination : string)
| ESign (bucket destination : string) (expires : float)
| ELogError (e : jserror)
| ERespond (status : nat) (body : json).

(** [fs]: the paths that exist; [ticks]: how often the clock was read. *)
Record State : Type := mkState {
  fs : list string;
  ticks : nat;
  trace : list event
}.

Definition M (A : Type) : Type := State -> completion A * State.

Definition ret {A} (a : A) : M A := fun s => (Normal a, s).

Definition throw {A} (e : jserror) : M A := fun s => (Throw e, s).

Definition bind {A B} (m : M A) (k : A -> M B) : M B :=
  fun s =>
    match m s with
    | (Normal a, s1) => k a s1
    | (Throw e, s1) => (Throw e, s1)
    | (Pending, s1) => (Pending, s1)
    end.

Notation "x <- c1 ;; c2" := (bind c1 (fun x => c2))
  (at level 61, c1 at next level, right associativity).
Notation "c1 ;;; c2" := (bind c1 (fun _ => c2))
  (at level 61, right associativity).

(** [try { body } catch (err) { handler }]. *)
Definition try_catch {A} (body : M A) (handler : jserror -> M A) : M A :=
  fun s =>
    match body s with
    | (Throw e, s1) => handler e s1
    | other => other
    end.

(** [try { body } finally { fin }]: [fin] runs on return and on throw; a
    throw of [fin] replaces the completion of [body]. *)
Definition try_finally {A} (body : M A) (fin : M unit) : M A :=
  fun s =>
    match body s with
    | (Pending, s1) => (Pending, s1)
    | (c, s1) =>
        match fin s1 with
        | (Normal _, s2) => (c, s2)
        | (Throw e, s2) => (Throw e, s2)
        | (Pending, s2) => (Pending, s2)
        end
    end.

Definition lift {A} (r : result A) : M A :=
  match r with Ok a => ret a | Err e => throw e end.

(** [await promise]: the promise's value, its rejection as a throw, or no
    continuation at all. *)
Definition await {A} (c : completion A) : M A := fun s => (c, s).

(** A promise that is already settled. *)
Definition settled {A} (r : result A) : completion A :=
  match r with Ok a => Normal a | Err e => Throw e end.

Definition emit (ev : event) : M unit :=
  fun s => (Normal tt, mkState (fs s) (ticks s) (trace s ++ [ev])).

Definition create (paths : list string) : M unit :=
  fun s => (Normal tt, mkState (fs s ++ paths) (ticks s) (trace s)).

Definition initial : State := mkState [] 0 [].

(** ** The program *)

Definition dquote : string := String "034"%char EmptyString.

Section Program.

Variable w : World.

(** *** Conversions that depend on the number built-ins *)

(** ToString of a value ([String(v)], a template literal): an array joins
    its elements with commas, [null] elements as the empty text; an object
    answers ["[object Object]"] unless it has an own member [toString],
    which (coming from JSON) is not callable, so that the conversion
    throws. *)
Fixpoint ToString (v : json) : result string :=
  match v with
  | JNull => Ok "null"
  | JBool true => Ok "true"
  | JBool false => Ok "false"
  | JNum n => Ok (NumberToString w n)
  | JStr s => Ok s
  | JArr l =>
      (fix join (l : list json) : result string :=
         match l with
         | [] => Ok ""
         | x :: r =>
             match (match x with JNull => Ok "" | _ => ToString x end) with
             | Err e => Err e
             | Ok sx =>
                 match r with
                 | [] => Ok sx
                 | _ => match join r with
                        | Err e => Err e
                        | Ok sr => Ok (sx ++ "," ++ sr)
                        end
                 end
             end
         end) l
  | JObj m =>
      if has_own "toString" m
      then Err (TypeError "Cannot convert object to primitive value")
      else Ok "[object Object]"
  end.

Definition ToString_opt (v : option json) : result string :=
  match v with
  | None => Ok "undefined"
  | Some j => ToString j
  end.

(** [Number(v)]. *)
Definition ToNumber (v : option json) : result float :=
  match v with
  | None => Ok nan
  | Some JNull => Ok 0%float
  | Some (JBool true) => Ok 1%float
  | Some (JBool false) => Ok 0%float
  | Some (JNum n) => Ok n
  | Some (JStr s) => Ok (StringToNumber w s)
  | Some j =>
      match ToString j with
      | Ok s => Ok (StringToNumber w s)
      | Err e => Err e
      end
  end.

(** [(req.body?.format || "ogg").toLowerCase()]: only a string has the
    method; for any other value the call throws (the message is the
    engine's rendering of the call site). *)
Definition not_a_function : string :=
  "((intermediate value) || " ++ dquote ++ "ogg" ++ dquote
    ++ ").toLowerCase is not a function".

Definition call_toLowerCase (v : json) : result string :=
  match v with
  | JStr s => Ok (toLowerCase s)
  | _ => Err (TypeError not_a_function)
  end.

(** *** Primitive effects *)

Definition now : M float :=
  fun s => (Normal (Date_now w (ticks s)), mkState (fs s) (S (ticks s)) (trace s)).

Definition remove_tree (p : string) : M unit :=
  fun s => (Normal tt,
            mkState (filter (fun q => negb (under w p q)) (fs s)) (ticks s) (trace s)).

(** [fs.rmSync(p, { recursive: true, force: true })]: the call returns
    with everything under [p] gone, or it throws and (in this model)
    leaves the files as they were. *)
Definition rmSync_recursive_force (p : string) : M unit :=
  emit (ERm p) ;;; lift (rmSync w p) ;;; remove_tree p.

Definition statSize (p : string) : M float :=
  emit (EStat p) ;;; lift (statSync_size w p).

Definition respond (status : nat) (body : json) : M unit :=
  emit (ERespond status body).

(** *** [safeMkdir], [safeRmdir] *)

Definition safeMkdir (p : string) : M unit :=
  emit (EMkdir p) ;;; lift (mkdirSync w p) ;;; create [p].

Definition safeRmdir (p : string) : M unit :=
  try_catch (rmSync_recursive_force p) (fun _ => ret tt).

(** *** [ffprobeJson], [getDurationSeconds] *)

Definition ffprobe_command (filePath : string) : string :=
  "ffprobe -v error -print_format json -show_format -show_streams "
    ++ dquote ++ filePath ++ dquote.

Definition ffprobeJson (filePath : string) : M json :=
  let command := ffprobe_command filePath in
  emit (EExecShell command) ;;;
  let r := execSync w command in
  create (exec_created r) ;;;
  out <- lift (exec_outcome r) ;;
  lift (JSON_parse w out).

Definition getDurationSeconds (filePath : string) : M (option float) :=
  try_catch
    (info <- ffprobeJson filePath ;;
     d <- lift (ToNumber (opt_prop (opt_prop (Some info) "format") "duration")) ;;
     ret (if isFinite d then Some d else None))
    (fun _ => ret None).

(** *** [downloadDriveFile] *)

Inductive emitter : Type := Source | Dest.
Inductive settle : Type := Resolve | Reject.

Definition emitter_eqb (a b : emitter) : bool :=
  match a, b with
  | Source, Source | Dest, Dest => true
  | _, _ => false
  end.

(** The listeners the promise executor registers:
    [dest.on("finish", resolve)] and [dest.on("error", reject)]. *)
Definition download_listeners : list (emitter * string * settle) :=
  [ (Dest, "finish", Resolve); (Dest, "error", Reject) ].

Fixpoint listener_for (ls : list (emitter * string * settle))
         (em : emitter) (name : string) : option settle :=
  match ls with
  | [] => None
  | (em', name', act) :: r =>
      if (emitter_eqb em' em && String.eqb name' name)%bool then Some act
      else listener_for r em name
  end.

(** [source.pipe(dest)] under a set of listeners: each chunk is written
    to [dest]; when the source ends, [pipe] ends [dest], which emits
    [finish] once everything is flushed; an error of the source does not
    end [dest] and stops the source.  The promise settles at the first
    emitted event that has a listener; the text written so far is
    returned with it. *)
Fixpoint run_pipe (ls : list (emitter * string * settle))
         (script : list stream_event) (flowing : bool) (written : string)
  : completion unit * string :=
  match script with
  | [] => (Pending, written)
  | SrcData chunk :: r =>
      if flowing then run_pipe ls r true (written ++ chunk)
      else run_pipe ls r false written
  | SrcEnd :: r =>
      if flowing then
        match listener_for ls Dest "finish" with
        | Some Resolve => (Normal tt, written)
        | Some Reject => (Throw (Error ""), written)
        | None => run_pipe ls r false written
        end
      else run_pipe ls r false written
  | SrcError e :: r =>
      if flowing then
        match listener_for ls Source "error" with
        | Some Resolve => (Normal tt, written)
        | Some Reject => (Throw e, written)
        | None => run_pipe ls r false written
        end
      else run_pipe ls r false written
  | DestError e :: r =>
      match listener_for ls Dest "error" with
      | Some Resolve => (Normal tt, written)
      | Some Reject => (Throw e, written)
      | None => run_pipe ls r flowing written
      end
  end.

Definition downloadDriveFile (fileId : json) (outputPath : string) : M unit :=
  emit (EDriveGet fileId) ;;;
  script <- await (drive_files_get w fileId) ;;
  create [outputPath] ;;;
  let '(c, written) := run_pipe download_listeners script true "" in
  emit (EPipe outputPath written) ;;;
  await c.

(** *** [uploadAndSign] *)

Definition bucket_truthy : bool :=
  match BUCKET w with Some b => truthy_string b | None => false end.

Definition bucket_name : string :=
  match BUCKET w with Some b => b | None => "" end.

Definition uploadAndSign (localPath destination : string) : M string :=
  if negb bucket_truthy then throw (Error "Missing BUCKET env var")
  else
    emit (EUpload bucket_name localPath destination) ;;;
    await (bucket_upload w bucket_name localPath destination) ;;;
    t <- now ;;
    let expires := (t + 60 * 60 * 1000)%float in
    emit (ESign bucket_name destination expires) ;;;
    await (getSignedUrl w bucket_name destination expires).

(** *** [extractAudio] *)

Definition default {A} (v : option A) (d : A) : A :=
  match v with Some a => a | None => d end.

(** The argument vector, or the error thrown for a format that is none
    of the three. *)
Definition extractAudio_args (inputPath outputPath : string)
           (format_ : option string) (sampleRate_ channels_ bitrateK_ : option float)
  : result (list string) :=
  let format := default format_ "ogg" in
  let sampleRate := default sampleRate_ 16000%float in
  let channels := default channels_ 1%float in
  let bitrateK := default bitrateK_ 32%float in
  let args :=
    ["-y"; "-i"; inputPath; "-vn";
     "-ac"; NumberToString w channels; "-ar"; NumberToString w sampleRate] in
  let codec :=
    if String.eqb format "ogg"
    then Ok ["-c:a"; "libopus"; "-b:a"; NumberToString w bitrateK ++ "k"]
    else if String.eqb format "mp3"
    then Ok ["-c:a"; "libmp3lame"; "-b:a"; NumberToString w bitrateK ++ "k"]
    else if String.eqb format "wav"
    then Ok ["-c:a"; "pcm_s16le"]
    else Err (Error ("Unsupported format: " ++ format)) in
  match codec with
  | Ok pushed => Ok ((args ++ pushed) ++ [outputPath])%list
  | Err e => Err e
  end.

Definition extractAudio (inputPath outputPath : string)
           (format : option string) (sampleRate channels bitrateK : option float)
  : M unit :=
  args <- lift (extractAudio_args inputPath outputPath format
                                  sampleRate channels bitrateK) ;;
  emit (EExecFile "ffmpeg" args) ;;;
  let r := execFileSync w "ffmpeg" args in
  create (exec_created r) ;;;
  _ <- lift (exec_outcome r) ;;
  ret tt.

(** *** [POST /extract-audio] *)

Definition error_body (msg : string) : json := JObj [("error", JStr msg)].

Definition audioExt_of (format : string) : string :=
  if String.eqb format "mp3" then "mp3"
  else if String.eqb format "wav" then "wav" else "ogg".

(** [Number.isFinite(x) && x > 0 ? x : d]. *)
Definition positive_or (x d : float) : float :=
  if (isFinite x && gt0 x)%bool then x else d.

Definition number_or_null (d : option float) : json :=
  match d with Some x => JNum x | None => JNull end.

Definition extract_audio_handler (body : option json) : M unit :=
  startedAt <- now ;;
  let fileId := prop (or_else body (JObj [])) "fileId" in
  format <- lift (call_toLowerCase (or_else (opt_prop body "format") (JStr "ogg"))) ;;
  bitrateK <- lift (ToNumber (Some (nullish (opt_prop body "bitrateK") (JNum 32)))) ;;
  sampleRate <- lift (ToNumber (Some (nullish (opt_prop body "sampleRate") (JNum 16000)))) ;;
  channels <- lift (ToNumber (Some (nullish (opt_prop body "channels") (JNum 1)))) ;;
  if negb (truthy fileId) then respond 400 (error_body "Missing fileId")
  else if negb bucket_truthy then respond 500 (error_body "Missing BUCKET env var")
  else
    id <- lift (ToString_opt fileId) ;;
    let workDir := "/tmp/" ++ id ++ "-audio" in
    let inputPath := path_join workDir "input.mp4" in
    let audioExt := audioExt_of format in
    let audioPath := path_join workDir ("audio." ++ audioExt) in
    try_finally
      (try_catch
         (safeMkdir workDir ;;;
          downloadDriveFile (default fileId JNull) inputPath ;;;
          inputSize <- statSize inputPath ;;
          durationSec <- getDurationSeconds inputPath ;;
          extractAudio inputPath audioPath (Some format)
                       (Some (positive_or sampleRate 16000))
                       (Some (positive_or channels 1))
                       (Some (positive_or bitrateK 32)) ;;;
          audioSize <- statSize audioPath ;;
          id' <- lift (ToString_opt fileId) ;;
          let destination := "audio/" ++ id' ++ "." ++ audioExt in
          audioUrl <- uploadAndSign audioPath destination ;;
          finishedAt <- now ;;
          respond 200
            (JObj [ ("fileId", default fileId JNull);
                    ("audioUrl", JStr audioUrl);
                    ("meta",
                     JObj [ ("format", JStr format);
                            ("inputBytes", JNum inputSize);
                            ("audioBytes", JNum audioSize);
                            ("durationSec", number_or_null durationSec);
                            ("elapsedMs", JNum (finishedAt - startedAt));
                            ("bucket", JStr bucket_name);
                            ("destination", JStr destination) ]) ]))
         (fun err =>
            emit (ELogError err) ;;;
            respond 500 (error_body (error_text err))))
      (safeRmdir workDir).

End Program.

(** ** The first revision of the handler ([server.js])

    It has no options: the audio is always Ogg/Opus, the conversion tool is
    run through the shell, and the working directory is left behind.
    [downloadDriveFile] is the same function. *)

Module Legacy.
Section Program.

Variable w : World.

Definition newline : string := String "010"%char EmptyString.

Definition uploadAndSign (localPath destination : string) : M string :=
  emit (EUpload (bucket_name w) localPath destination) ;;;
  await (bucket_upload w (bucket_name w) localPath destination) ;;;
  t <- now w ;;
  let expires := (t + 60 * 60 * 1000)%float in
  emit (ESign (bucket_name w) destination expires) ;;;
  await (getSignedUrl w (bucket_name w) destination expires).

(** The template literal given to [execSync]; a backslash before a line
    break continues the line. *)
Definition ffmpeg_command (inputPath audioPath : string) : string :=
  newline ++ "      ffmpeg -y -i " ++ dquote ++ inputPath ++ dquote ++ " "
          ++ "      -vn -ac 1 -ar 16000 "
          ++ "      -c:a libopus -b:a 32k "
          ++ "      " ++ dquote ++ audioPath ++ dquote ++ newline ++ "    ".

(** [const { fileId } = req.body]: destructuring [undefined] or [null]
    throws (the message is the engine's). *)
Definition destructure_fileId (body : option json) : result (option json) :=
  match body with
  | None =>
      Err (TypeError
             "Cannot destructure property 'fileId' of 'req.body' as it is undefined.")
  | Some JNull =>
      Err (TypeError
             "Cannot destructure property 'fileId' of 'req.body' as it is null.")
  | Some j => Ok (prop j "fileId")
  end.

Definition extract_audio_handler (body : option json) : M unit :=
  try_catch
    (fileId <- lift (destructure_fileId body) ;;
     if negb (truthy fileId) then respond 400 (error_body "Missing fileId")
     else if negb (bucket_truthy w) then respond 500 (error_body "Missing BUCKET env var")
     else
       id <- lift (ToString_opt w fileId) ;;
       let workDir := "/tmp/" ++ id in
       emit (EMkdir workDir) ;;;
       lift (mkdirSync w workDir) ;;;
       create [workDir] ;;;
       let inputPath := workDir ++ "/input.mp4" in
       let audioPath := workDir ++ "/audio.ogg" in
       downloadDriveFile w (default fileId JNull) inputPath ;;;
       (let command := ffmpeg_command inputPath audioPath in
        emit (EExecShell command) ;;;
        let r := execSync w command in
        create (exec_created r) ;;;
        lift (exec_outcome r)) ;;;
       id' <- lift (ToString_opt w fileId) ;;
       let destination := "audio/" ++ id' ++ ".ogg" in
       url <- uploadAndSign audioPath destination ;;
       respond 200 (JObj [("fileId", default fileId JNull); ("audioUrl", JStr url)]))
    (fun err =>
       emit (ELogError err) ;;;
       respond 500 (error_body (err_message err))).

End Program.
End Legacy.

(** ** Names for what the handler reads and derives

    The expressions of the handler, named so that statements can refer to
    them; each unfolds to the term the handler contains. *)

Definition request_fileId (body : option json) : option json :=
  prop (or_else body (JObj [])) "fileId".

Definition request_format (body : option json) : result string :=
  call_toLowerCase (or_else (opt_prop body "format") (JStr "ogg")).

Definition request_number (w : World) (body : option json) (name : string) (d : float)
  : result float :=
  ToNumber w (Some (nullish (opt_prop body name) (JNum d))).

Definition workDir_of (id : string) : string := "/tmp/" ++ id ++ "-audio".

Definition inputPath_of (id : string) : string :=
  path_join (workDir_of id) "input.mp4".

Definition audioPath_of (id format : string) : string :=
  path_join (workDir_of id) ("audio." ++ audioExt_of format).

Definition destination_of (id format : string) : string :=
  "audio/" ++ id ++ "." ++ audioExt_of format.

Definition success_body (w : World) (fileId : json) (id format audioUrl : string)
           (inputSize audioSize : float) (durationSec : option float) (elapsedMs : float)
  : json :=
  JObj [ ("fileId", fileId);
         ("audioUrl", JStr audioUrl);
         ("meta",
          JObj [ ("format", JStr format);
                 ("inputBytes", JNum inputSize);
                 ("audioBytes", JNum audioSize);
                 ("durationSec", number_or_null durationSec);
                 ("elapsedMs", JNum elapsedMs);
                 ("bucket", JStr (bucket_name w));
                 ("destination", JStr (destination_of id format)) ]) ].

(** The events a request can give rise to once it has passed validation,
    with file identifier [fileId] (of text [id]), format [f] and numeric
    options [b] (bitrate), [r] (sample rate) and [c] (channels) as read
    from the body. *)
Inductive emitted (w : World) (fileId : json) (id f : string) (b r c : float)
  : event -> Prop :=
| em_mkdir : emitted w fileId id f b r c (EMkdir (workDir_of id))
| em_get : emitted w fileId id f b r c (EDriveGet fileId)
| em_pipe written : emitted w fileId id f b r c (EPipe (inputPath_of id) written)
| em_stat_input : emitted w fileId id f b r c (EStat (inputPath_of id))
| em_probe :
    emitted w fileId id f b r c (EExecShell (ffprobe_command (inputPath_of id)))
| em_ffmpeg args :
    extractAudio_args w (inputPath_of id) (audioPath_of id f) (Some f)
                      (Some (positive_or r 16000)) (Some (positive_or c 1))
                      (Some (positive_or b 32)) = Ok args ->
    emitted w fileId id f b r c (EExecFile "ffmpeg" args)
| em_stat_audio : emitted w fileId id f b r c (EStat (audioPath_of id f))
| em_upload :
    emitted w fileId id f b r c
            (EUpload (bucket_name w) (audioPath_of id f) (destination_of id f))
| em_sign expires :
    emitted w fileId id f b r c (ESign (bucket_name w) (destination_of id f) expires)
| em_log e : emitted w fileId id f b r c (ELogError e)
| em_success url inputSize audioSize durationSec elapsedMs :
    emitted w fileId id f b r c
            (ERespond 200 (success_body w fileId id f url inputSize audioSize
                                        durationSec elapsedMs))
| em_failure e : emitted w fileId id f b r c (ERespond 500 (error_body (error_text e)))
| em_rm : emitted w fileId id f b r c (ERm (workDir_of id)).

(** Every event of a request is a validation response or one of the
    above. *)
Definition handler_event (w : World) (body : option json) (ev : event) : Prop :=
  ev = ERespond 400 (error_body "Missing fileId") \/
  ev = ERespond 500 (error_body "Missing BUCKET env var") \/
  exists fileId id f b r c,
    request_fileId body = Some fileId /\
    ToString w fileId = Ok id /\
    request_format body = Ok f /\
    request_number w body "bitrateK" 32 = Ok b /\
    request_number w body "sampleRate" 16000 = Ok r /\
    request_number w body "channels" 1 = Ok c /\
    emitted w fileId id f b r c ev.

(** The responses sent, in order. *)
Fixpoint responses (l : list event) : list (nat * json) :=
  match l with
  | [] => []
  | ERespond status body :: r => (status, body) :: responses r
  | _ :: r => responses r
  end.

(** The subprocesses spawned, in order. *)
Definition is_spawn (ev : event) : bool :=
  match ev with
  | EExecShell _ | EExecFile _ _ => true
  | _ => false
  end.

(** The same environment with another outcome of [fs.rmSync]. *)
Definition with_rmSync (w : World) (rm : string -> result unit) : World :=
  {| BUCKET := BUCKET w;
     StringToNumber := StringToNumber w;
     NumberToString := NumberToString w;
     JSON_parse := JSON_parse w;
     Date_now := Date_now w;
     under := under w;
     mkdirSync := mkdirSync w;
     rmSync := rm;
     statSync_size := statSync_size w;
     execSync := execSync w;
     execFileSync := execFileSync w;
     drive_files_get := drive_files_get w;
     bucket_upload := bucket_upload w;
     getSignedUrl := getSignedUrl w |}.

(** What [getDurationSeconds] returns, as a function of the environment. *)
Definition probed_duration (w : World) (p : string) : option float :=
  match exec_outcome (execSync w (ffprobe_command p)) with
  | Ok out =>
      match JSON_parse w out with
      | Ok info =>
          match ToNumber w (opt_prop (opt_prop (Some info) "format") "duration") with
          | Ok d => if isFinite d then Some d else None
          | Err _ => None
          end
      | Err _ => None
      end
  | Err _ => None
  end.

(** The paths left by [safeRmdir]. *)
Definition paths_after_rm (w : World) (p : string) (paths : list string) : list string :=
  match rmSync w p with
  | Ok _ => filter (fun q => negb (under w p q)) paths
  | Err _ => paths
  end.

(** The trace ends with one response followed by the removal of [d], and
    holds no other response (computable form). *)
Fixpoint ends_respond_rm (d : string) (l : list event) : Prop :=
  match l with
  | [] => False
  | [ERespond _ _; ERm d'] => d' = d
  | ERespond _ _ :: _ => False
  | _ :: r => ends_respond_rm d r
  end.

(** The numeric option the transcoder is given. *)
Definition effective_number (r : result float) (d : float) : result float :=
  match r with
  | Ok x => Ok (positive_or x d)
  | Err e => Err e
  end.

(** The documented defaults. *)
Definition numeric_defaults : list (string * float) :=
  [("bitrateK", 32%float); ("sampleRate", 16000%float); ("channels", 1%float)].

(** A JSON value that is a number, or a text the number parser accepts. *)
Definition is_numeric (w : World) (v : json) : bool :=
  match v with
  | JNum _ => true
  | JStr s => negb (PrimFloat.is_nan (StringToNumber w s))
  | _ => false
  end.

(** A request that starts with an empty trace. *)
Definition start (paths : list string) (t : nat) : State := mkState paths t [].

(** ** An example environment

    A bucket is configured, every external call succeeds, the Drive file
    arrives in two chunks and the probe reports a duration of two seconds.
    The number built-ins are given on the few texts and numbers the
    examples use. *)

Module Example.

Definition number_texts : list (float * string) :=
  [ (0%float, "0"); (1%float, "1"); (2%float, "2"); (32%float, "32");
    (64%float, "64"); (16000%float, "16000"); (44100%float, "44100") ].

Fixpoint text_of (t : list (float * string)) (x : float) : string :=
  match t with
  | [] => "NaN"
  | (y, s) :: r => if PrimFloat.eqb x y then s else text_of r x
  end.

Fixpoint number_of (t : list (float * string)) (s : string) : float :=
  match t with
  | [] => nan
  | (y, s') :: r => if String.eqb s s' then y else number_of r s
  end.

Definition number_text (x : float) : string := text_of number_texts x.

Definition text_number (s : string) : float :=
  if String.eqb s "" then 0%float
  else if String.eqb s "2.000000" then 2%float
  else if String.eqb s "-5" then (-5)%float
  else number_of number_texts s.

Definition probe_stdout : string :=
  "{" ++ dquote ++ "format" ++ dquote ++ ":{" ++ dquote ++ "duration" ++ dquote
      ++ ":" ++ dquote ++ "2.000000" ++ dquote ++ "}}".

Definition probe_info : json := JObj [("format", JObj [("duration", JStr "2.000000")])].

(** A probe output whose duration is the JSON value [true]. *)
Definition odd_stdout : string :=
  "{" ++ dquote ++ "format" ++ dquote ++ ":{" ++ dquote ++ "duration" ++ dquote
      ++ ":true}}".

Definition odd_info : json := JObj [("format", JObj [("duration", JBool true)])].

Definition parse (s : string) : result json :=
  if String.eqb s probe_stdout then Ok probe_info
  else if String.eqb s odd_stdout then Ok odd_info
  else Err (mkError "SyntaxError" "Unexpected token in JSON").

Definition script : list stream_event := [SrcData "abc"; SrcData "def"; SrcEnd].

(** The example environment, with the parts the examples vary. *)
Definition world_with (bucket : option string)
           (download : result (list stream_event))
           (probe : exec_result) (rm : result unit) : World :=
  {| BUCKET := bucket;
     StringToNumber := text_number;
     NumberToString := number_text;
     JSON_parse := parse;
     Date_now := fun n => match n with 0 => 1000%float | 1 => 5000%float | _ => 6000%float end;
     under := fun d p => String.eqb d p || String.prefix (d ++ "/") p;
     mkdirSync := fun _ => Ok tt;
     rmSync := fun _ => rm;
     statSync_size := fun p => if String.eqb p "/tmp/abc123-audio/input.mp4"
                               then Ok 4096%float else Ok 512%float;
     execSync := fun _ => probe;
     execFileSync := fun _ args => mkExec [last args ""] (Ok "");
     drive_files_get := fun _ => settled download;
     bucket_upload := fun _ _ _ => Normal tt;
     getSignedUrl :=
       fun b d _ => Normal ("https://storage.googleapis.com/" ++ b ++ "/" ++ d ++ "?sig")
  |}.

Definition world : World :=
  world_with (Some "media") (Ok script) (mkExec [] (Ok probe_stdout)) (Ok tt).

Definition request (members : list (string * json)) : option json :=
  Some (JObj members).

(** The probe prints [odd_stdout]. *)
Definition odd_probe_world : World :=
  world_with (Some "media") (Ok script) (mkExec [] (Ok odd_stdout)) (Ok tt).

(** The probe cannot be started. *)
Definition failed_probe_world : World :=
  world_with (Some "media") (Ok script)
             (mkExec [] (Err (Error "Command failed: ffprobe"))) (Ok tt).

(** The connection to Drive breaks after the first chunk. *)
Definition broken_download_world : World :=
  world_with (Some "media")
             (Ok [SrcData "abc"; SrcError (Error "socket hang up")])
             (mkExec [] (Ok probe_stdout)) (Ok tt).

(** The disk fills up after the first chunk. *)
Definition full_disk_world : World :=
  world_with (Some "media")
             (Ok [SrcData "abc"; DestError (Error "ENOSPC"); SrcData "def"; SrcEnd])
             (mkExec [] (Ok probe_stdout)) (Ok tt).

(** No bucket is configured. *)
Definition no_bucket_world : World :=
  world_with None (Ok script) (mkExec [] (Ok probe_stdout)) (Ok tt).

(** Removing the working directory fails. *)
Definition stuck_rm_world : World :=
  world_with (Some "media") (Ok script) (mkExec [] (Ok probe_stdout))
             (Err (Error "EBUSY")).

End Example.

(** ** Two sentences of the specification, as they are written *)


(** "Returns null if the duration field is missing or non-numeric". *)
Definition null_when_not_numeric (w : World) (filePath : string) : Prop :=
  forall out info,
    exec_outcome (execSync w (ffprobe_command filePath)) = Ok out ->
    JSON_parse w out = Ok info ->
    match opt_prop (opt_prop (Some info) "format") "duration" with
    | None => True
    | Some v => is_numeric w v = false
    end ->
    fst (getDurationSeconds w filePath initial) = Normal None.

(** ** Further names and example environments *)


(** The members of the body the handler reads. *)
Definition read_members : list string :=
  ["fileId"; "format"; "bitrateK"; "sampleRate"; "channels"].


(** Further example environments. *)
Module Scenario.

(** Drive does not know the file. *)
Definition missing_file_world : World :=
  Example.world_with (Some "media") (Err (Error "File not found: abc123"))
                     (mkExec [] (Ok Example.probe_stdout)) (Ok tt).


Definition plain_request : option json := Example.request [("fileId", JStr "abc123")].

Definition plain_run : completion unit * State :=
  extract_audio_handler Example.world plain_request (start [] 0).

End Scenario.

(** ** Facts about the built-ins *)

Lemma lower_ascii_idempotent (c : ascii) : lower_ascii (lower_ascii c) = lower_ascii c.
Proof. destruct c as [[] [] [] [] [] [] [] []]; reflexivity. Qed.

Lemma toLowerCase_idempotent (s : string) : toLowerCase (toLowerCase s) = toLowerCase s.
Proof.
  induction s as [|c r IH]; simpl; [reflexivity|].
  now rewrite lower_ascii_idempotent, IH.
Qed.

Lemma get_app_last (k k' : string) (v : json) (m : list (string * json)) :
  get k (m ++ [(k', v)]) = if String.eqb k' k then Some v else get k m.
Proof.
  induction m as [|[k0 v0] r IH]; simpl.
  - reflexivity.
  - rewrite IH. destruct (String.eqb k' k); reflexivity.
Qed.

Lemma split_slash_nonempty (s : string) : split_slash s <> [].
Proof.
  destruct s as [|c r]; simpl; [discriminate|].
  destruct (Ascii.eqb c "/"); [discriminate|].
  destruct (split_slash r); discriminate.
Qed.

Lemma split_slash_app (a b : string) :
  split_slash (a ++ "/" ++ b) = (split_slash a ++ split_slash b)%list.
Proof.
  change ("/" ++ b) with (String "/" b).
  induction a as [|c r IH]; simpl.
  - reflexivity.
  - rewrite IH. destruct (Ascii.eqb c "/"); [reflexivity|].
    destruct (split_slash r) eqn:E; [now apply split_slash_nonempty in E|].
    reflexivity.
Qed.

(** A plain file name is pushed last and nothing after it removes it. *)
Definition plain_name (name : string) : Prop :=
  split_slash name = [name] /\
  (String.eqb name "" || String.eqb name "." || String.eqb name "..")%bool = false.

Lemma normalizeSegments_last (above : bool) (name : string) (segs stack : list string) :
  (String.eqb name "" || String.eqb name "." || String.eqb name "..")%bool = false ->
  normalizeSegments above (segs ++ [name]) stack
  = (normalizeSegments above segs stack ++ [name])%list.
Proof.
  intros Hn. revert stack.
  induction segs as [|seg r IH]; intros stack; simpl.
  - apply orb_false_elim in Hn as [Hn H2]. apply orb_false_elim in Hn as [H0 H1].
    rewrite H0, H1, H2. reflexivity.
  - destruct (String.eqb seg "" || String.eqb seg ".")%bool; [apply IH|].
    destruct (String.eqb seg "..").
    + destruct stack as [|top below]; [destruct above; apply IH|].
      destruct (String.eqb top ".."); apply IH.
    + apply IH.
Qed.

Lemma append_assoc (a b c : string) : (a ++ b) ++ c = a ++ (b ++ c).
Proof. induction a as [|x r IH]; simpl; [reflexivity | now rewrite IH]. Qed.

Lemma concat_slash_last (l : list string) (name : string) :
  exists dir, "/" ++ String.concat "/" (l ++ [name]) = dir ++ "/" ++ name.
Proof.
  induction l as [|x r IH].
  - exists "". reflexivity.
  - destruct IH as [dir IH].
    exists ("/" ++ x ++ dir).
    change (String.concat "/" ((x :: r) ++ [name]))
      with (String.concat "/" (x :: (r ++ [name])%list)).
    assert (E : String.concat "/" (x :: (r ++ [name])%list)
                = x ++ "/" ++ String.concat "/" (r ++ [name])).
    { simpl. destruct (r ++ [name])%list eqn:E; [now destruct r | reflexivity]. }
    rewrite E, IH, !append_assoc. reflexivity.
Qed.

Lemma ends_with_slash_app (a b : string) :
  b <> "" -> ends_with_slash (a ++ b) = ends_with_slash b.
Proof.
  intros Hb. induction a as [|x r IH]; [reflexivity|].
  change (String x r ++ b) with (String x (r ++ b)).
  cbn [ends_with_slash]. destruct (r ++ b) eqn:E; [|exact IH].
  destruct r; [now simpl in E | discriminate].
Qed.

Lemma ends_with_slash_split (s : string) :
  ends_with_slash s = true -> exists h t u, split_slash s = h :: t :: u.
Proof.
  induction s as [|c r IH]; [discriminate|].
  cbn [ends_with_slash split_slash]. destruct r as [|c' r'].
  - intros ->. now exists "", "", [].
  - intros H. destruct (IH H) as (h & t & u & E). rewrite E.
    destruct (Ascii.eqb c "/"); eauto.
Qed.

(** [path.join] of an absolute directory and a plain file name ends in a
    slash followed by that name. *)
Lemma path_join_plain_name (d name : string) :
  starts_with_slash d = true -> plain_name name ->
  exists dir, path_join d name = dir ++ "/" ++ name.
Proof.
  intros Habs [Hsplit Hplain].
  assert (Hne : name <> "") by (intros ->; discriminate).
  assert (Hd : d <> "") by (intros ->; discriminate).
  assert (Hs : starts_with_slash (d ++ "/" ++ name) = true)
    by (destruct d; [easy | exact Habs]).
  assert (He : ends_with_slash (d ++ "/" ++ name) = false).
  { rewrite <- append_assoc, ends_with_slash_app by exact Hne.
    destruct (ends_with_slash name) eqn:E; [|reflexivity].
    apply ends_with_slash_split in E as (h & t & u & E). congruence. }
  assert (Hj : normalize (d ++ "/" ++ name)
               = "/" ++ String.concat "/"
                   (normalizeSegments false (split_slash d) [] ++ [name])).
  { unfold normalize. rewrite Hs, He. cbn [negb].
    rewrite split_slash_app, Hsplit, normalizeSegments_last by exact Hplain.
    destruct (d ++ "/" ++ name) eqn:Ed; [now destruct d|].
    destruct (String.concat "/" (normalizeSegments false (split_slash d) [] ++ [name])) eqn:Ec.
    - exfalso. destruct (normalizeSegments false (split_slash d) []) as [|h tl]; cbn in Ec.
      + easy.
      + destruct (tl ++ [name])%list eqn:E3; [now destruct tl|]. now destruct h.
    - reflexivity. }
  unfold path_join. destruct d; [easy|]. destruct name; [easy|].
  rewrite Hj. apply concat_slash_last.
Qed.

(** ** Reasoning about runs of the handler *)

Lemma pair_inj {A B} (a c : A) (b d : B) : (a, b) = (c, d) -> a = c /\ b = d.
Proof. intros H. split; congruence. Qed.

(** The probe always returns, having spawned one shell command. *)
Lemma getDurationSeconds_eq w p s :
  getDurationSeconds w p s
  = (Normal (probed_duration w p),
     mkState (fs s ++ exec_created (execSync w (ffprobe_command p))) (ticks s)
             (trace s ++ [EExecShell (ffprobe_command p)])).
Proof.
  destruct s as [paths t tr].
  unfold getDurationSeconds, probed_duration, ffprobeJson, try_catch, bind, lift,
    emit, create, ret, throw.
  cbv beta iota zeta delta [fs ticks trace].
  destruct (exec_outcome (execSync w (ffprobe_command p))) as [out|e]; [|reflexivity].
  destruct (JSON_parse w out) as [info|e]; [|reflexivity].
  destruct (ToNumber w (opt_prop (opt_prop (Some info) "format") "duration")) as [d|e];
    reflexivity.
Qed.

(** [safeRmdir] always returns, having attempted one removal. *)
Lemma safeRmdir_eq w p s :
  safeRmdir w p s
  = (Normal tt, mkState (paths_after_rm w p (fs s)) (ticks s) (trace s ++ [ERm p])).
Proof.
  destruct s as [paths t tr].
  unfold safeRmdir, paths_after_rm, rmSync_recursive_force, try_catch, bind, lift, emit,
    remove_tree, ret, throw.
  cbv beta iota zeta delta [fs ticks trace].
  destruct (rmSync w p) as [[]|e]; reflexivity.
Qed.

Lemma paths_after_rm_clean w p paths :
  rmSync w p = Ok tt -> forall q, In q (paths_after_rm w p paths) -> under w p q = false.
Proof.
  intros Hrm q. unfold paths_after_rm. rewrite Hrm.
  intros Hq. apply filter_In in Hq as [_ Hq]. now apply negb_true_iff in Hq.
Qed.

(** Symbolic execution of a run [H : handler ... = (c, s')]: unfold the
    monad, then decide the calls to the environment one at a time, in
    program order. *)
Ltac unfold_m H :=
  cbv beta iota zeta delta
    [extract_audio_handler safeMkdir 
     downloadDriveFile statSize extractAudio
     uploadAndSign respond try_finally try_catch bind lift emit create ret throw
     now await default start fst snd trace fs ticks] in H.

Ltac head_scrutinee t :=
  lazymatch t with
  | match ?x with _ => _ end => head_scrutinee x
  | (match ?x with _ => _ end) _ => head_scrutinee x
  | _ => t
  end.

Ltac case_on H x :=
  lazymatch x with
  | getDurationSeconds ?w ?p ?s => rewrite (getDurationSeconds_eq w p s) in H
  | safeRmdir ?w ?p ?s => rewrite (safeRmdir_eq w p s) in H
  | _ => destruct x eqn:?
  end; unfold_m H.

Ltac step H :=
  lazymatch type of H with
  | ?X = _ =>
      lazymatch X with
      | match _ with _ => _ end => let x := head_scrutinee X in case_on H x
      | (match _ with _ => _ end) _ => let x := head_scrutinee X in case_on H x
      end
  end.

Ltac finish H :=
  apply pair_inj in H as [<- <-]; cbv beta iota delta [trace fs ticks app].

Ltac in_trace Hin :=
  cbn [In] in Hin;
  repeat (destruct Hin as [Hin|Hin]; [try discriminate Hin|]);
  try contradiction.

Lemma EMkdir_inj (a b : string) : EMkdir a = EMkdir b -> a = b.
Proof. congruence. Qed.

Lemma EExecShell_inj (a b : string) : EExecShell a = EExecShell b -> a = b.
Proof. congruence. Qed.

Lemma EExecFile_inj f1 a1 f2 a2 : EExecFile f1 a1 = EExecFile f2 a2 -> f1 = f2 /\ a1 = a2.
Proof. intros H. split; congruence. Qed.

Lemma EUpload_inj b1 l1 d1 b2 l2 d2 :
  EUpload b1 l1 d1 = EUpload b2 l2 d2 -> b1 = b2 /\ l1 = l2 /\ d1 = d2.
Proof. intros H. repeat split; congruence. Qed.

Lemma ERespond_inj st1 b1 st2 b2 : ERespond st1 b1 = ERespond st2 b2 -> st1 = st2 /\ b1 = b2.
Proof. intros H. split; congruence. Qed.


(** Every event of a run belongs to the vocabulary of the request. *)
Lemma handler_emits w body fs0 t0 c s' :
  extract_audio_handler w body (start fs0 t0) = (c, s') ->
  Forall (handler_event w body) (trace s').
Proof.
  intros H. unfold_m H.
  destruct (prop (or_else body (JObj [])) "fileId") as [j|] eqn:Ej; unfold_m H.
  all: repeat step H.
  all: finish H.
  all: try (cbn in *; discriminate).
  all: repeat apply Forall_cons; try apply Forall_nil.
  all: first [ left; reflexivity | right; left; reflexivity | right; right; do 6 eexists; (repeat split); [eassumption .. | econstructor; eassumption] | idtac ].
Qed.

Lemma emitted_upload w fileId id f b r c bucket localPath destination :
  emitted w fileId id f b r c (EUpload bucket localPath destination) ->
  bucket = bucket_name w /\ localPath = audioPath_of id f /\
  destination = destination_of id f.
Proof. intros H. inversion H. auto. Qed.

Lemma emitted_ffmpeg w fileId id f b r c file args :
  emitted w fileId id f b r c (EExecFile file args) ->
  file = "ffmpeg" /\
  extractAudio_args w (inputPath_of id) (audioPath_of id f) (Some f)
                    (Some (positive_or r 16000)) (Some (positive_or c 1))
                    (Some (positive_or b 32)) = Ok args.
Proof. intros H. inversion H. auto. Qed.

Lemma emitted_success w fileId id f b r c b200 :
  emitted w fileId id f b r c (ERespond 200 b200) ->
  exists url inputSize audioSize durationSec elapsedMs,
    b200 = success_body w fileId id f url inputSize audioSize durationSec elapsedMs.
Proof. intros H. inversion H. eauto 8. Qed.

(** The members a success response reports. *)
Lemma success_response_shape w body fs0 t0 c s' b200 :
  extract_audio_handler w body (start fs0 t0) = (c, s') ->
  In (ERespond 200 b200) (trace s') ->
  exists fileId id f url inputSize audioSize durationSec elapsedMs,
    request_fileId body = Some fileId /\ ToString w fileId = Ok id /\
    request_format body = Ok f /\
    b200 = success_body w fileId id f url inputSize audioSize durationSec elapsedMs.
Proof.
  intros H Hin. pose proof (handler_emits _ _ _ _ _ _ H) as Hall.
  rewrite Forall_forall in Hall. specialize (Hall _ Hin).
  destruct Hall as [E|[E|(fileId & id & f & b & r & ch & Hid & Hs & Hf & _ & _ & _ & Hem)]];
    try (apply ERespond_inj in E as [E _]; discriminate E).
  destruct (emitted_success _ _ _ _ _ _ _ _ Hem) as (url & i & a & d & el & ->).
  eauto 12.
Qed.

Lemma ends_respond_rm_split (d : string) (l : list event) :
  ends_respond_rm d l ->
  exists pre status b, l = (pre ++ [ERespond status b; ERm d])%list /\ responses pre = [].
Proof.
  induction l as [|ev r IH]; [easy|].
  destruct ev; cbn [ends_respond_rm];
    try (intros H; destruct (IH H) as (pre & st & b & -> & Hp);
         eexists (_ :: pre), st, b; split; [reflexivity | exact Hp]).
  destruct r as [|ev2 r2]; [easy|].
  destruct ev2; try easy. destruct r2; [|easy].
  intros ->. now exists [], status, body.
Qed.

(** Changing the outcome of [fs.rmSync] changes neither the completion nor
    the trace of a run. *)
Ltac same_world w rm H :=
  change (BUCKET (with_rmSync w rm)) with (BUCKET w) in H;
  change (Date_now (with_rmSync w rm)) with (Date_now w) in H;
  change (mkdirSync (with_rmSync w rm)) with (mkdirSync w) in H;
  change (statSync_size (with_rmSync w rm)) with (statSync_size w) in H;
  change (execFileSync (with_rmSync w rm)) with (execFileSync w) in H;
  change (drive_files_get (with_rmSync w rm)) with (drive_files_get w) in H;
  change (bucket_upload (with_rmSync w rm)) with (bucket_upload w) in H;
  change (getSignedUrl (with_rmSync w rm)) with (getSignedUrl w) in H;
  change (ToNumber (with_rmSync w rm)) with (ToNumber w) in H;
  change (ToString_opt (with_rmSync w rm)) with (ToString_opt w) in H;
  change (bucket_truthy (with_rmSync w rm)) with (bucket_truthy w) in H;
  change (bucket_name (with_rmSync w rm)) with (bucket_name w) in H;
  change (extractAudio_args (with_rmSync w rm)) with (extractAudio_args w) in H;
  change (getDurationSeconds (with_rmSync w rm)) with (getDurationSeconds w) in H.

Lemma handler_ignores_rm_outcome w rm body fs0 t0 c s' c2 s2 :
  extract_audio_handler w body (start fs0 t0) = (c, s') ->
  extract_audio_handler (with_rmSync w rm) body (start fs0 t0) = (c2, s2) ->
  c2 = c /\ trace s2 = trace s'.
Proof.
  intros H H2.
  unfold_m H. unfold_m H2. same_world w rm H2.
  repeat step H.
  all: unfold_m H2; repeat step H2.
  all: apply pair_inj in H as [<- <-]; apply pair_inj in H2 as [<- <-].
  all: cbv beta iota delta [trace]; split; congruence.
Qed.

(** The handler depends on the body through the file identifier, the
    format and the three numeric options as the transcoder receives them. *)
Lemma handler_extensional w body1 body2 s :
  request_fileId body1 = request_fileId body2 ->
  request_format body1 = request_format body2 ->
  effective_number (request_number w body1 "bitrateK" 32) 32
  = effective_number (request_number w body2 "bitrateK" 32) 32 ->
  effective_number (request_number w body1 "sampleRate" 16000) 16000
  = effective_number (request_number w body2 "sampleRate" 16000) 16000 ->
  effective_number (request_number w body1 "channels" 1) 1
  = effective_number (request_number w body2 "channels" 1) 1 ->
  extract_audio_handler w body1 s = extract_audio_handler w body2 s.
Proof.
  unfold request_fileId, request_format, request_number, effective_number.
  intros Hid Hf Hb Hr Hc.
  unfold extract_audio_handler, bind, lift, now, ret, throw.
  rewrite Hid, Hf.
  destruct (call_toLowerCase (or_else (opt_prop body2 "format") (JStr "ogg"))) as [f|e];
    [|reflexivity].
  destruct (ToNumber w (Some (nullish (opt_prop body1 "bitrateK") (JNum 32)))) as [b1|e1],
           (ToNumber w (Some (nullish (opt_prop body2 "bitrateK") (JNum 32)))) as [b2|e2];
    try discriminate Hb; [|now injection Hb as ->].
  injection Hb as Hb.
  destruct (ToNumber w (Some (nullish (opt_prop body1 "sampleRate") (JNum 16000)))) as [r1|e1],
           (ToNumber w (Some (nullish (opt_prop body2 "sampleRate") (JNum 16000)))) as [r2|e2];
    try discriminate Hr; [|now injection Hr as ->].
  injection Hr as Hr.
  destruct (ToNumber w (Some (nullish (opt_prop body1 "channels") (JNum 1)))) as [c1|e1],
           (ToNumber w (Some (nullish (opt_prop body2 "channels") (JNum 1)))) as [c2|e2];
    try discriminate Hc; [|now injection Hc as ->].
  injection Hc as Hc.
  cbv beta iota zeta. rewrite Hb, Hr, Hc. reflexivity.
Qed.

Lemma request_format_lowercase body f :
  request_format body = Ok f -> toLowerCase f = f.
Proof.
  unfold request_format, call_toLowerCase.
  destruct (or_else (opt_prop body "format") (JStr "ogg")); try discriminate.
  intros E. assert (f = toLowerCase s) by congruence. subst f.
  apply toLowerCase_idempotent.
Qed.


Lemma extractAudio_args_last w i o f r ch b args :
  extractAudio_args w i o f r ch b = Ok args -> last args "" = o.
Proof.
  unfold extractAudio_args.
  destruct (String.eqb (default f "ogg") "ogg");
    [|destruct (String.eqb (default f "ogg") "mp3");
      [|destruct (String.eqb (default f "ogg") "wav"); [|discriminate]]];
    intros E; assert (E' := f_equal (fun x => match x with Ok l => last l "" | Err _ => "" end) E);
    cbv beta iota in E'; rewrite <- E'; rewrite last_last; reflexivity.
Qed.

Lemma positive_or_rejects (x d : float) :
  (isFinite x && gt0 x)%bool = false -> positive_or x d = d.
Proof. unfold positive_or. now intros ->. Qed.

Lemma positive_or_same (d : float) : positive_or d d = d.
Proof. unfold positive_or. now destruct (isFinite d && gt0 d)%bool. Qed.

Lemma request_number_provided w m k d v x :
  ToNumber w (Some v) = Ok x -> (isFinite x && gt0 x)%bool = false ->
  effective_number (request_number w (Some (JObj (m ++ [(k, v)]))) k d) d = Ok d.
Proof.
  intros Hx Hbad. unfold request_number, effective_number. cbn [opt_prop prop].
  rewrite get_app_last, String.eqb_refl.
  destruct v; cbn [nullish]; try (rewrite Hx; now rewrite positive_or_rejects).
  cbn [ToNumber]. now rewrite positive_or_same.
Qed.

Lemma request_number_absent w m k d :
  get k m = None ->
  effective_number (request_number w (Some (JObj m)) k d) d = Ok d.
Proof.
  intros Hk. unfold request_number, effective_number. cbn [opt_prop prop]. rewrite Hk.
  cbn [nullish ToNumber]. now rewrite positive_or_same.
Qed.

Lemma request_number_other w m k v k' d :
  String.eqb k k' = false ->
  request_number w (Some (JObj (m ++ [(k, v)]))) k' d
  = request_number w (Some (JObj m)) k' d.
Proof.
  intros E. unfold request_number. cbn [opt_prop prop]. now rewrite get_app_last, E.
Qed.

(** The probe is one shell command. *)
Lemma ffprobeJson_spawns_shell w p s :
  trace (snd (ffprobeJson w p s)) = (trace s ++ [EExecShell (ffprobe_command p)])%list.
Proof.
  destruct s as [paths t tr].
  unfold ffprobeJson, bind, lift, emit, create, ret, throw.
  cbv beta iota zeta delta [fs ticks trace].
  destruct (exec_outcome (execSync w (ffprobe_command p))) as [out|e]; [|reflexivity].
  destruct (JSON_parse w out); reflexivity.
Qed.

Lemma run_pipe_stopped (script : list stream_event) (written : string) c out :
  run_pipe download_listeners script false written = (c, out) ->
  out = written /\ (c = Pending \/ exists e, c = Throw e /\ In (DestError e) script).
Proof.
  revert c out. induction script as [|ev r IH]; intros c out; cbn [run_pipe].
  - intros H. apply pair_inj in H as [<- <-]. auto.
  - assert (Hrec : run_pipe download_listeners r false written = (c, out) ->
                   out = written /\
                   (c = Pending \/ exists e, c = Throw e /\ In (DestError e) (ev :: r))).
    { intros H. destruct (IH _ _ H) as (-> & [->|(e0 & -> & Hin)]).
      - split; [reflexivity | now left].
      - split; [reflexivity|]. right. exists e0. split; [reflexivity | now right]. }
    destruct ev; cbn; try exact Hrec.
    intros H. apply pair_inj in H as [<- <-]. split; [reflexivity|].
    right. exists e. split; [reflexivity | now left].
Qed.

(** When the download promise resolves, the source has ended and every
    chunk it delivered has been written; when it rejects, the error is one
    of the destination stream. *)
Lemma run_pipe_outcomes (script : list stream_event) (written : string) c out :
  run_pipe download_listeners script true written = (c, out) ->
  match c with
  | Normal _ =>
      exists chunks rest,
        script = (map SrcData chunks ++ SrcEnd :: rest)%list /\
        out = written ++ String.concat "" chunks
  | Throw e => In (DestError e) script
  | Pending => True
  end.
Proof.
  revert written c out. induction script as [|ev r IH]; intros written c out; cbn [run_pipe].
  - intros H. apply pair_inj in H as [<- <-]. exact I.
  - destruct ev; cbn.
    + intros H. specialize (IH _ _ _ H). destruct c as [[]|e|]; [|now right|exact I].
      destruct IH as (chunks & rest & -> & ->). exists (chunk :: chunks), rest.
      split; [reflexivity|].
      rewrite append_assoc. f_equal. cbn [String.concat].
      destruct chunks; cbn; [|reflexivity].
      clear. induction chunk; cbn; [reflexivity | now f_equal].
    + intros H. apply pair_inj in H as [<- <-]. exists [], r. split; [reflexivity|].
      cbn. clear. induction written; cbn; [reflexivity | now f_equal].
    + intros H. apply run_pipe_stopped in H as (-> & [->|(e0 & -> & Hin)]); [exact I|now right].
    + intros H. apply pair_inj in H as [<- <-]. now left.
Qed.

Lemma run_pipe_stopped_pending (script : list stream_event) (written out : string) :
  run_pipe download_listeners script false written = (Pending, out) ->
  forall e, ~ In (DestError e) script.
Proof.
  induction script as [|ev r IH]; cbn [run_pipe]; intros H e Hin; [exact Hin|].
  destruct ev; cbn in H; try discriminate H.
  all: destruct Hin as [E|Hin]; [discriminate E | exact (IH H e Hin)].
Qed.

Lemma append_empty (s : string) : s ++ "" = s.
Proof. induction s; cbn; [reflexivity | now f_equal]. Qed.

Lemma concat_cons (chunk : string) (chunks : list string) :
  String.concat "" (chunk :: chunks) = chunk ++ String.concat "" chunks.
Proof. cbn [String.concat]. destruct chunks; [now rewrite append_empty | reflexivity]. Qed.

(** The download promise stays pending only if the destination stream had
    no error and the source stream failed, or never ended; the chunks it
    delivered until then have been written. *)
Lemma run_pipe_pending (script : list stream_event) (written out : string) :
  run_pipe download_listeners script true written = (Pending, out) ->
  exists chunks,
    (script = map SrcData chunks \/
     exists e rest, script = (map SrcData chunks ++ SrcError e :: rest)%list) /\
    (forall e, ~ In (DestError e) script) /\
    out = written ++ String.concat "" chunks.
Proof.
  revert written out. induction script as [|ev r IH]; intros written out; cbn [run_pipe].
  - intros H. apply pair_inj in H as [_ <-]. exists []. split; [now left|].
    split; [intros e []|]. cbn. now rewrite append_empty.
  - destruct ev; cbn; try discriminate.
    + intros H. destruct (IH _ _ H) as (chunks & Hs & Hd & ->).
      exists (chunk :: chunks). split; [|split].
      * destruct Hs as [->|(e & rest & ->)]; [now left|]. right. now exists e, rest.
      * intros e [E|Hin]; [discriminate E | exact (Hd e Hin)].
      * now rewrite concat_cons, append_assoc.
    + intros H. exists []. split; [right; now exists e, r|].
      pose proof (run_pipe_stopped _ _ _ _ H) as (-> & _).
      split; [|cbn; now rewrite append_empty].
      intros e' [E|Hin]; [discriminate E | exact (run_pipe_stopped_pending _ _ _ H e' Hin)].
Qed.

(** Property X5.  When the options of the body can be read, a missing file
    identifier is answered with 400 and a missing bucket with 500, and
    nothing else happens. *)
Lemma validation_precedes_effects w body fs0 t0 f b r ch :
  request_format body = Ok f ->
  request_number w body "bitrateK" 32 = Ok b ->
  request_number w body "sampleRate" 16000 = Ok r ->
  request_number w body "channels" 1 = Ok ch ->
  (truthy (request_fileId body) = false ->
   extract_audio_handler w body (start fs0 t0)
   = (Normal tt, mkState fs0 (S t0) [ERespond 400 (error_body "Missing fileId")])) /\
  (truthy (request_fileId body) = true -> bucket_truthy w = false ->
   extract_audio_handler w body (start fs0 t0)
   = (Normal tt, mkState fs0 (S t0) [ERespond 500 (error_body "Missing BUCKET env var")])).
Proof.
  unfold request_format, request_number, request_fileId. intros Hf Hb Hr Hc.
  split; [intros Hid | intros Hid Hbucket];
    unfold extract_audio_handler, bind, lift, now, ret, respond, emit, start;
    cbv beta iota zeta delta [fs ticks trace];
    rewrite Hf, Hb, Hr, Hc, Hid; cbv beta iota delta [negb]; [reflexivity|].
  rewrite Hbucket. reflexivity.
Qed.

(** A probe that cannot be started leaves [durationSec] null in an
    otherwise successful response. *)
Lemma failed_probe_still_answers :
  responses (trace (snd (extract_audio_handler Example.failed_probe_world
                           (Example.request [("fileId", JStr "abc123")]) initial)))
  = [(200,
      success_body Example.failed_probe_world (JStr "abc123") "abc123" "ogg"
                   "https://storage.googleapis.com/media/audio/abc123.ogg?sig"
                   4096 512 None 5000)].
Proof. vm_compute. reflexivity. Qed.

(** *** The first revision *)

Ltac unfold_legacy H :=
  cbv beta iota zeta delta
    [Legacy.extract_audio_handler Legacy.uploadAndSign downloadDriveFile
     respond try_catch bind lift emit create ret throw
     now await default start fst snd trace fs ticks] in H.

Ltac step_legacy H :=
  lazymatch type of H with
  | ?X = _ =>
      lazymatch X with
      | match _ with _ => _ end =>
          let x := head_scrutinee X in destruct x eqn:?; unfold_legacy H
      | (match _ with _ => _ end) _ =>
          let x := head_scrutinee X in destruct x eqn:?; unfold_legacy H
      end
  end.

(** The first revision publishes under [audio/<fileId>.ogg]. *)
Lemma legacy_destination_key w body fs0 t0 c s' bucket localPath destination :
  Legacy.extract_audio_handler w body (start fs0 t0) = (c, s') ->
  In (EUpload bucket localPath destination) (trace s') ->
  exists fileId id,
    Legacy.destructure_fileId body = Ok (Some fileId) /\ ToString w fileId = Ok id /\
    localPath = "/tmp/" ++ id ++ "/audio.ogg" /\
    destination = "audio/" ++ id ++ ".ogg".
Proof.
  intros H Hin. unfold_legacy H.
  destruct (Legacy.destructure_fileId body) as [[j|]|e] eqn:Ej; unfold_legacy H.
  all: repeat step_legacy H.
  all: apply pair_inj in H as [<- <-]; cbv beta iota delta [trace fs app] in *.
  all: in_trace Hin.
  all: apply EUpload_inj in Hin as (<- & <- & <-).
  all: try (cbn in *; discriminate).
  all: exists j; eexists; split; [reflexivity|]; split; [eassumption|]; split; reflexivity.
Qed.

(** ** The claims *)




(** Claim C2 at the failing input.  The connection to Drive breaks after
    the first chunk: the handler has created the working directory and the
    input file and then waits for ever; it sends no response and removes
    nothing, so the directory and the partial file stay.  (When it is the
    destination stream that fails, the same request is answered and the
    directory removed.) *)
Lemma source_error_leaves_the_working_directory :
  let body := Example.request [("fileId", JStr "abc123"); ("format", JStr "mp3")] in
  let broken := extract_audio_handler Example.broken_download_world body (start [] 0) in
  let full := extract_audio_handler Example.full_disk_world body (start [] 0) in
  fst broken = Pending /\
  trace (snd broken)
  = [EMkdir "/tmp/abc123-audio"; EDriveGet (JStr "abc123");
     EPipe "/tmp/abc123-audio/input.mp4" "abc"] /\
  fs (snd broken) = ["/tmp/abc123-audio"; "/tmp/abc123-audio/input.mp4"] /\
  (forall p, ~ In (ERm p) (trace (snd broken))) /\
  responses (trace (snd broken)) = [] /\
  fst full = Normal tt /\
  trace (snd full)
  = [EMkdir "/tmp/abc123-audio"; EDriveGet (JStr "abc123");
     EPipe "/tmp/abc123-audio/input.mp4" "abc";
     ELogError (Error "ENOSPC"); ERespond 500 (error_body "ENOSPC");
     ERm "/tmp/abc123-audio"] /\
  fs (snd full) = [].
Proof.
  cbv zeta. repeat split; try (vm_compute; reflexivity).
  intros p Hin. vm_compute in Hin. in_trace Hin.
Qed.

(** Claim C3 at the failing inputs.  The options are read before the
    validation and outside the [try]: a body without [fileId] whose format
    is the number 5 makes the handler throw without any response (no 400);
    so does a body with a [fileId] but a boolean format when no bucket is
    configured (no 500), and a bitrate that is an object with a member
    [toString]. *)
Lemma validation_skipped_when_option_parsing_throws :
  request_fileId (Example.request [("format", JNum 5)]) = None /\
  extract_audio_handler Example.world (Example.request [("format", JNum 5)]) initial
  = (Throw (TypeError not_a_function), mkState [] 1 []) /\
  extract_audio_handler Example.no_bucket_world
      (Example.request [("fileId", JStr "abc123"); ("format", JBool true)]) initial
  = (Throw (TypeError not_a_function), mkState [] 1 []) /\
  extract_audio_handler Example.world
      (Example.request [("bitrateK", JObj [("toString", JNum 1)])]) initial
  = (Throw (TypeError "Cannot convert object to primitive value"), mkState [] 1 []).
Proof. repeat split; vm_compute; reflexivity. Qed.

(** Claim C4.  Let [k] be one of bitrateK, sampleRate, channels with
    documented default [d], and [v] a provided value that [Number]
    converts to [x], not finite or not above zero.  Then the value given
    to the transcoder is [d]; the request behaves, in every state, exactly
    as the same request without the option; and every invocation of the
    conversion tool is built with [d] in the place of [k]. *)
Theorem numeric_option_falls_back w m k d v x :
  In (k, d) numeric_defaults ->
  get k m = None ->
  ToNumber w (Some v) = Ok x ->
  (isFinite x && gt0 x)%bool = false ->
  positive_or x d = d /\
  (forall s,
      extract_audio_handler w (Some (JObj (m ++ [(k, v)]))) s
      = extract_audio_handler w (Some (JObj m)) s) /\
  (forall fs0 t0 c s' file args,
      extract_audio_handler w (Some (JObj (m ++ [(k, v)]))) (start fs0 t0) = (c, s') ->
      In (EExecFile file args) (trace s') ->
      exists id f b r ch,
        extractAudio_args w (inputPath_of id) (audioPath_of id f) (Some f)
                          (Some r) (Some ch) (Some b) = Ok args /\
        (k = "bitrateK" -> b = d) /\ (k = "sampleRate" -> r = d) /\
        (k = "channels" -> ch = d)).
Proof.
  intros Hk Hnone Hx Hbad.
  split; [now apply positive_or_rejects|].
  assert (Heff : forall k' d', In (k', d') numeric_defaults ->
            effective_number (request_number w (Some (JObj (m ++ [(k, v)]))) k' d') d'
            = effective_number (request_number w (Some (JObj m)) k' d') d').
  { intros k' d' Hk'. destruct (String.eqb k k') eqn:E.
    - apply String.eqb_eq in E. subst k'.
      assert (d' = d).
      { cbn in Hk, Hk'.
        destruct Hk as [Hk|[Hk|[Hk|[]]]], Hk' as [Hk'|[Hk'|[Hk'|[]]]];
          congruence. }
      subst d'. rewrite request_number_provided with (x := x) by assumption.
      now rewrite request_number_absent.
    - now rewrite request_number_other. }
  assert (Hnames : String.eqb k "fileId" = false /\ String.eqb k "format" = false).
  { cbn in Hk. destruct Hk as [Hk|[Hk|[Hk|[]]]]; injection Hk as <- _; split; reflexivity. }
  destruct Hnames as [Hn1 Hn2].
  split.
  - intros s. apply handler_extensional.
    + unfold request_fileId. cbn [or_else truthy_json prop]. now rewrite get_app_last, Hn1.
    + unfold request_format. cbn [opt_prop prop]. now rewrite get_app_last, Hn2.
    + apply Heff. now left.
    + apply Heff. right. now left.
    + apply Heff. right. right. now left.
  - intros fs0 t0 c s' file args H Hin.
    pose proof (handler_emits _ _ _ _ _ _ H) as Hall.
    rewrite Forall_forall in Hall.
    destruct (Hall _ Hin) as [E|[E|(j & id & f & b & r & ch & _ & _ & _ & Hb & Hr & Hc & Hem)]];
      try discriminate E.
    apply emitted_ffmpeg in Hem as [_ Hargs].
    exists id, f, (positive_or b 32), (positive_or r 16000), (positive_or ch 1).
    split; [exact Hargs|].
    assert (Hone : forall k' d' y, In (k', d') numeric_defaults -> k = k' ->
               request_number w (Some (JObj (m ++ [(k, v)]))) k' d' = Ok y ->
               positive_or y d' = d).
    { intros k' d' y Hk' <- Hy.
      assert (d' = d).
      { cbn in Hk, Hk'.
        destruct Hk as [Hk|[Hk|[Hk|[]]]], Hk' as [Hk'|[Hk'|[Hk'|[]]]];
          congruence. }
      subst d'.
      pose proof (request_number_provided w m k d v x Hx Hbad) as Hp.
      rewrite Hy in Hp. cbn [effective_number] in Hp. congruence. }
    split; [|split]; intros Ek.
    + apply (Hone "bitrateK" 32%float b); [now left | exact Ek | exact Hb].
    + apply (Hone "sampleRate" 16000%float r); [right; now left | exact Ek | exact Hr].
    + apply (Hone "channels" 1%float ch); [right; right; now left | exact Ek | exact Hc].
Qed.

(** The statement above at [{fileId: "abc123", bitrateK: -5}]. *)
Lemma numeric_option_falls_back_witness :
  In ("bitrateK", 32%float) numeric_defaults /\
  get "bitrateK" [("fileId", JStr "abc123")] = None /\
  ToNumber Example.world (Some (JNum (-5))) = Ok (-5)%float /\
  (isFinite (-5) && gt0 (-5))%bool = false /\
  positive_or (-5) 32 = 32%float /\
  forall s,
    extract_audio_handler Example.world
      (Some (JObj ([("fileId", JStr "abc123")] ++ [("bitrateK", JNum (-5))]))) s
    = extract_audio_handler Example.world (Some (JObj [("fileId", JStr "abc123")])) s.
Proof.
  assert (H1 : In ("bitrateK", 32%float) numeric_defaults) by (left; reflexivity).
  assert (H2 : get "bitrateK" [("fileId", JStr "abc123")] = None) by reflexivity.
  assert (H3 : ToNumber Example.world (Some (JNum (-5))) = Ok (-5)%float) by reflexivity.
  assert (H4 : (isFinite (-5) && gt0 (-5))%bool = false) by reflexivity.
  split; [exact H1|]. split; [exact H2|]. split; [exact H3|]. split; [exact H4|].
  destruct (numeric_option_falls_back Example.world [("fileId", JStr "abc123")]
              "bitrateK" 32%float (JNum (-5)) (-5)%float H1 H2 H3 H4) as (Ha & Hb & _).
  split; [exact Ha | exact Hb].
Defined.

(** Claim C5 at the failing input.  For the file identifier ["$(id)"] the
    metadata probe is run through [execSync], that is through the shell,
    with a command text that embeds the path derived from the identifier
    between double quotes; only the conversion tool gets an argument
    vector. *)
Lemma probe_command_goes_through_the_shell :
  let body := Example.request [("fileId", JStr "$(id)")] in
  let tr := trace (snd (extract_audio_handler Example.world body initial)) in
  In (EExecShell (ffprobe_command "/tmp/$(id)-audio/input.mp4")) tr /\
  ffprobe_command "/tmp/$(id)-audio/input.mp4"
  = "ffprobe -v error -print_format json -show_format -show_streams "
      ++ dquote ++ "/tmp/$(id)-audio/input.mp4" ++ dquote /\
  In (EExecFile "ffmpeg"
        ["-y"; "-i"; "/tmp/$(id)-audio/input.mp4"; "-vn"; "-ac"; "1"; "-ar"; "16000";
         "-c:a"; "libopus"; "-b:a"; "32k"; "/tmp/$(id)-audio/audio.ogg"]) tr.
Proof.
  cbv zeta. split; [|split; [reflexivity|]].
  - vm_compute. do 4 right. left. reflexivity.
  - vm_compute. do 5 right. left. reflexivity.
Qed.

(** Claim C6, as the code has it.  The probe always returns, either no
    value (null) or a finite number; it returns null when the command
    fails, when its output is not JSON, when the duration member is
    missing, and when [Number] of the member throws or is not finite;
    otherwise it returns [Number] of the member. *)
Theorem duration_probe_never_throws w filePath s :
  exists r s',
    getDurationSeconds w filePath s = (Normal r, s') /\
    (r = None \/ exists d, r = Some d /\ isFinite d = true) /\
    (forall e, exec_outcome (execSync w (ffprobe_command filePath)) = Err e -> r = None) /\
    (forall out,
        exec_outcome (execSync w (ffprobe_command filePath)) = Ok out ->
        (forall e, JSON_parse w out = Err e -> r = None) /\
        (forall info,
            JSON_parse w out = Ok info ->
            let duration := opt_prop (opt_prop (Some info) "format") "duration" in
            (duration = None -> r = None) /\
            (forall e, ToNumber w duration = Err e -> r = None) /\
            (forall d, ToNumber w duration = Ok d -> isFinite d = false -> r = None) /\
            (forall d, ToNumber w duration = Ok d -> isFinite d = true -> r = Some d))).
Proof.
  eexists _, _. split; [apply getDurationSeconds_eq|].
  unfold probed_duration.
  destruct (exec_outcome (execSync w (ffprobe_command filePath))) as [out|e0].
  2:{ split; [now left|]. split; [intros; reflexivity|]. intros out E. congruence. }
  split.
  { destruct (JSON_parse w out) as [info|]; [|now left].
    destruct (ToNumber w _) as [d|]; [|now left].
    destruct (isFinite d) eqn:E; [right; now exists d | now left]. }
  split; [intros e E; congruence|].
  intros out' E. assert (out' = out) by congruence. subst out'. clear E.
  split; [intros e ->; reflexivity|].
  intros info ->. cbv zeta.
  split; [intros ->; reflexivity|].
  split; [intros e ->; reflexivity|].
  split; intros d -> ->; reflexivity.
Qed.

(** Claim C6 as written fails: a probe output whose duration is the JSON
    value [true], which is not numeric, yields 1 and not null. *)
Lemma non_numeric_duration_is_returned :
  ~ null_when_not_numeric Example.odd_probe_world "/tmp/abc123-audio/input.mp4".
Proof.
  intros H.
  specialize (H Example.odd_stdout Example.odd_info eq_refl eq_refl eq_refl).
  vm_compute in H. discriminate H.
Qed.

(** Claim C7.  For a request with format [f] among ogg, mp3 and wav and a
    file identifier of text [id]: the extension is [f]; the audio file is
    [audio.<f>] in the working directory, and it is the output argument of
    every invocation of the conversion tool; every upload publishes that
    file under [audio/<id>.<f>], which is also the destination a success
    response reports; a request without format has [f = "ogg"]; and the
    first revision of the handler publishes under [audio/<id>.ogg]. *)
Theorem audio_extension_and_destination_key w body fs0 t0 c s' f fileId id :
  request_format body = Ok f ->
  f = "ogg" \/ f = "mp3" \/ f = "wav" ->
  request_fileId body = Some fileId ->
  ToString w fileId = Ok id ->
  extract_audio_handler w body (start fs0 t0) = (c, s') ->
  audioExt_of f = f /\
  (exists dir, audioPath_of id f = dir ++ "/audio." ++ f) /\
  (forall file args, In (EExecFile file args) (trace s') -> last args "" = audioPath_of id f) /\
  (forall bucket localPath destination,
      In (EUpload bucket localPath destination) (trace s') ->
      localPath = audioPath_of id f /\ destination = "audio/" ++ id ++ "." ++ f) /\
  (forall b200,
      In (ERespond 200 b200) (trace s') ->
      opt_prop (opt_prop (Some b200) "meta") "destination"
      = Some (JStr ("audio/" ++ id ++ "." ++ f))) /\
  (opt_prop body "format" = None -> f = "ogg") /\
  (forall c0 s0 bucket localPath destination,
      Legacy.extract_audio_handler w body (start fs0 t0) = (c0, s0) ->
      In (EUpload bucket localPath destination) (trace s0) ->
      destination = "audio/" ++ id ++ ".ogg").
Proof.
  intros Hf Hsup Hid Hs H.
  assert (Hext : audioExt_of f = f) by (destruct Hsup as [->|[->| ->]]; reflexivity).
  assert (Hevents : forall ev, In ev (trace s') ->
            ev = ERespond 400 (error_body "Missing fileId") \/
            ev = ERespond 500 (error_body "Missing BUCKET env var") \/
            exists b r ch, emitted w fileId id f b r ch ev).
  { intros ev Hin. pose proof (handler_emits _ _ _ _ _ _ H) as Hall.
    rewrite Forall_forall in Hall.
    destruct (Hall _ Hin) as [E|[E|(j & id' & f' & b & r & ch & Hid' & Hs' & Hf' & _ & _ & _ & Hem)]];
      [now left | now (right; left) |].
    right; right.
    assert (j = fileId) by congruence. subst j.
    assert (id' = id) by congruence. assert (f' = f) by congruence. subst id' f'.
    now exists b, r, ch. }
  split; [exact Hext|]. split; [|split; [|split; [|split; [|split]]]].
  - unfold audioPath_of. rewrite Hext.
    apply path_join_plain_name; [reflexivity|].
    destruct Hsup as [->|[->| ->]]; split; reflexivity.
  - intros file args Hin.
    destruct (Hevents _ Hin) as [E|[E|(b & r & ch & Hem)]]; try discriminate E.
    apply emitted_ffmpeg in Hem as [_ Hargs]. eapply extractAudio_args_last; exact Hargs.
  - intros bucket localPath destination Hin.
    destruct (Hevents _ Hin) as [E|[E|(b & r & ch & Hem)]]; try discriminate E.
    apply emitted_upload in Hem as (_ & -> & ->).
    unfold destination_of. rewrite Hext. split; reflexivity.
  - intros b200 Hin.
    destruct (Hevents _ Hin) as [E|[E|(b & r & ch & Hem)]];
      try (apply ERespond_inj in E as [E _]; discriminate E).
    destruct (emitted_success _ _ _ _ _ _ _ _ Hem) as (url & i & a & d & el & ->).
    unfold success_body, destination_of. rewrite Hext. reflexivity.
  - intros Hnone. unfold request_format in Hf. rewrite Hnone in Hf.
    change (call_toLowerCase (or_else None (JStr "ogg"))) with (@Ok string "ogg") in Hf.
    congruence.
  - intros c0 s0 bucket localPath destination H0 Hin.
    destruct (legacy_destination_key _ _ _ _ _ _ _ _ _ H0 Hin)
      as (j & id' & Hj & Hs' & _ & ->).
    assert (Hsame : request_fileId body = Some j).
    { unfold request_fileId. unfold Legacy.destructure_fileId in Hj.
      destruct body as [[| | | | |m]|]; try discriminate Hj;
        try (injection Hj as Hj; discriminate Hj).
      injection Hj as Hj. exact Hj. }
    assert (j = fileId) by congruence. subst j.
    assert (id' = id) by congruence. now subst id'.
Qed.

(** The statement above at [{fileId: "abc123", format: "mp3"}]. *)
Lemma audio_extension_and_destination_key_witness :
  let body := Example.request [("fileId", JStr "abc123"); ("format", JStr "mp3")] in
  let run := extract_audio_handler Example.world body (start [] 0) in
  request_format body = Ok "mp3" /\
  request_fileId body = Some (JStr "abc123") /\
  ToString Example.world (JStr "abc123") = Ok "abc123" /\
  audioExt_of "mp3" = "mp3" /\
  forall bucket localPath destination,
    In (EUpload bucket localPath destination) (trace (snd run)) ->
    localPath = audioPath_of "abc123" "mp3" /\ destination = "audio/" ++ "abc123" ++ "." ++ "mp3".
Proof.
  cbv zeta.
  split; [reflexivity|]. split; [reflexivity|]. split; [reflexivity|].
  destruct (audio_extension_and_destination_key Example.world
              (Example.request [("fileId", JStr "abc123"); ("format", JStr "mp3")])
              [] 0 _ _ "mp3" (JStr "abc123") "abc123"
              eq_refl (or_intror (or_introl eq_refl)) eq_refl eq_refl
              (surjective_pairing _)) as (Ha & _ & _ & Hb & _).
  split; [exact Ha | exact Hb].
Defined.

(** Claim C8.  The argument vector starts with [-y -i <input> -vn -ac
    <channels> -ar <sampleRate>], continues with [-c:a libopus -b:a
    <bitrateK>k] for ogg, [-c:a libmp3lame -b:a <bitrateK>k] for mp3 and
    [-c:a pcm_s16le] for wav, whatever the bitrate, and ends with the
    output path; [extractAudio] hands exactly this vector to ffmpeg. *)
Theorem transcoder_argument_vector w inputPath outputPath sampleRate channels bitrateK :
  let common := ["-y"; "-i"; inputPath; "-vn";
                 "-ac"; NumberToString w channels; "-ar"; NumberToString w sampleRate] in
  extractAudio_args w inputPath outputPath (Some "ogg")
                    (Some sampleRate) (Some channels) (Some bitrateK)
  = Ok (common ++ ["-c:a"; "libopus"; "-b:a"; (NumberToString w bitrateK ++ "k")%string; outputPath])%list /\
  extractAudio_args w inputPath outputPath (Some "mp3")
                    (Some sampleRate) (Some channels) (Some bitrateK)
  = Ok (common ++ ["-c:a"; "libmp3lame"; "-b:a"; (NumberToString w bitrateK ++ "k")%string; outputPath])%list /\
  (forall anyBitrate,
      extractAudio_args w inputPath outputPath (Some "wav")
                        (Some sampleRate) (Some channels) anyBitrate
      = Ok (common ++ ["-c:a"; "pcm_s16le"; outputPath])%list) /\
  (forall format s args,
      extractAudio_args w inputPath outputPath format
                        (Some sampleRate) (Some channels) (Some bitrateK) = Ok args ->
      trace (snd (extractAudio w inputPath outputPath format
                               (Some sampleRate) (Some channels) (Some bitrateK) s))
      = (trace s ++ [EExecFile "ffmpeg" args])%list).
Proof.
  cbv zeta. repeat split; try reflexivity.
  intros format s args E. destruct s as [paths t tr].
  unfold extractAudio, bind, lift, emit, create, ret, throw. rewrite E.
  cbv beta iota zeta delta [fs ticks trace].
  destruct (exec_outcome (execFileSync w "ffmpeg" args)); reflexivity.
Qed.

(** Claim C9 at the failing input.  When the source stream fails after the
    first chunk, [downloadDriveFile] neither resolves nor rejects: the file
    holds the first chunk only, and the handler never responds nor cleans
    up.  An error of the destination stream does reject. *)
Lemma source_error_leaves_download_pending :
  downloadDriveFile Example.broken_download_world (JStr "abc123")
                    "/tmp/abc123-audio/input.mp4" initial
  = (Pending,
     mkState ["/tmp/abc123-audio/input.mp4"] 0
             [EDriveGet (JStr "abc123"); EPipe "/tmp/abc123-audio/input.mp4" "abc"]) /\
  extract_audio_handler Example.broken_download_world
                        (Example.request [("fileId", JStr "abc123")]) initial
  = (Pending,
     mkState ["/tmp/abc123-audio"; "/tmp/abc123-audio/input.mp4"] 1
             [EMkdir "/tmp/abc123-audio"; EDriveGet (JStr "abc123");
              EPipe "/tmp/abc123-audio/input.mp4" "abc"]) /\
  fst (downloadDriveFile Example.full_disk_world (JStr "abc123")
                         "/tmp/abc123-audio/input.mp4" initial)
  = Throw (Error "ENOSPC").
Proof. repeat split; vm_compute; reflexivity. Qed.

(** Claim C10.  A request with format [S] behaves, in every state, exactly
    as the same request with [S] in lower case; a non-empty [S] is read as
    its lower-case form; the format a success response reports is in lower
    case, and so is the file extension. *)
Theorem format_is_case_insensitive w m S :
  (forall s,
      extract_audio_handler w (Some (JObj (m ++ [("format", JStr S)]))) s
      = extract_audio_handler w (Some (JObj (m ++ [("format", JStr (toLowerCase S))]))) s) /\
  (S <> "" ->
   request_format (Some (JObj (m ++ [("format", JStr S)]))) = Ok (toLowerCase S)) /\
  (forall body fs0 t0 c s' b200,
      extract_audio_handler w body (start fs0 t0) = (c, s') ->
      In (ERespond 200 b200) (trace s') ->
      exists f, request_format body = Ok f /\ toLowerCase f = f /\
                opt_prop (opt_prop (Some b200) "meta") "format" = Some (JStr f)) /\
  (forall f, toLowerCase (audioExt_of f) = audioExt_of f).
Proof.
  assert (Hfmt : forall T, request_format (Some (JObj (m ++ [("format", JStr T)])))
                           = Ok (if String.eqb T "" then "ogg" else toLowerCase T)).
  { intros T. unfold request_format. cbn [opt_prop prop]. rewrite get_app_last.
    cbn [String.eqb Ascii.eqb Bool.eqb]. cbv beta iota.
    destruct T; reflexivity. }
  assert (Hother : forall T k, String.eqb "format" k = false ->
                               get k (m ++ [("format", JStr T)]) = get k m).
  { intros T k E. now rewrite get_app_last, E. }
  split; [|split; [|split]].
  - intros s. apply handler_extensional.
    + unfold request_fileId. cbn [or_else truthy_json prop]. now rewrite !Hother.
    + rewrite !Hfmt. destruct S as [|a S']; [reflexivity|].
      cbn [toLowerCase String.eqb]. now rewrite lower_ascii_idempotent, toLowerCase_idempotent.
    + unfold request_number. cbn [opt_prop prop]. now rewrite !Hother.
    + unfold request_number. cbn [opt_prop prop]. now rewrite !Hother.
    + unfold request_number. cbn [opt_prop prop]. now rewrite !Hother.
  - intros HS. rewrite Hfmt. destruct S; [congruence | reflexivity].
  - intros body fs0 t0 c s' b200 H Hin.
    destruct (success_response_shape _ _ _ _ _ _ _ H Hin)
      as (fileId & id & f & url & i & a & d & el & _ & _ & Hf & ->).
    exists f. split; [exact Hf|]. split; [now apply request_format_lowercase with body|].
    reflexivity.
  - intros f. unfold audioExt_of.
    destruct (String.eqb f "mp3"); [reflexivity|]. destruct (String.eqb f "wav"); reflexivity.
Qed.

(** ** Further properties of the code *)

Lemma ERm_inj (a b : string) : ERm a = ERm b -> a = b.
Proof. congruence. Qed.

Lemma EPipe_inj p1 w1 p2 w2 : EPipe p1 w1 = EPipe p2 w2 -> p1 = p2 /\ w1 = w2.
Proof. intros H. split; congruence. Qed.

Lemma ELogError_inj e1 e2 : ELogError e1 = ELogError e2 -> e1 = e2.
Proof. congruence. Qed.

Lemma emitted_respond w fileId id f b r c status body :
  emitted w fileId id f b r c (ERespond status body) ->
  (status = 200 /\
   exists url inputSize audioSize durationSec elapsedMs,
     body = success_body w fileId id f url inputSize audioSize durationSec elapsedMs) \/
  (status = 500 /\ exists e, body = error_body (error_text e)).
Proof. intros H. inversion H; [left | right]; split; eauto 8. Qed.

Ltac suffix_of_three :=
  first
    [ eexists [], _; split; [reflexivity|reflexivity]
    | eexists [_], _; split; [reflexivity|reflexivity]
    | eexists [_; _], _; split; [reflexivity|reflexivity]
    | eexists [_; _; _], _; split; [reflexivity|reflexivity]
    | eexists [_; _; _; _], _; split; [reflexivity|reflexivity]
    | eexists [_; _; _; _; _], _; split; [reflexivity|reflexivity]
    | eexists [_; _; _; _; _; _], _; split; [reflexivity|reflexivity]
    | eexists [_; _; _; _; _; _; _], _; split; [reflexivity|reflexivity]
    | eexists [_; _; _; _; _; _; _; _], _; split; [reflexivity|reflexivity]
    | eexists [_; _; _; _; _; _; _; _; _], _; split; [reflexivity|reflexivity] ].


Lemma split_slash_plain_app (a b : string) :
  split_slash a = [a] -> split_slash b = [b] -> split_slash (a ++ b) = [a ++ b].
Proof.
  intros Ha Hb. induction a as [|c r IH]; [exact Hb|].
  cbn [append split_slash] in *.
  destruct (Ascii.eqb c "/"); [discriminate Ha|].
  destruct (split_slash r) as [|h t] eqn:E; [now apply split_slash_nonempty in E|].
  assert (h = r /\ t = []) as [-> ->] by (split; congruence).
  now rewrite IH.
Qed.

Lemma length_append (a b : string) :
  String.length (a ++ b) = String.length a + String.length b.
Proof. induction a as [|c r IH]; cbn; [reflexivity | now rewrite IH]. Qed.

Lemma long_segment_is_kept (x : string) :
  3 <= String.length x ->
  (String.eqb x "" || String.eqb x "." || String.eqb x "..")%bool = false.
Proof.
  intros H.
  destruct (String.eqb x "") eqn:E1; [apply String.eqb_eq in E1; subst; cbn in H; lia|].
  destruct (String.eqb x ".") eqn:E2; [apply String.eqb_eq in E2; subst; cbn in H; lia|].
  destruct (String.eqb x "..") eqn:E3; [apply String.eqb_eq in E3; subst; cbn in H; lia|].
  reflexivity.
Qed.

Lemma normalize_absolute (p : string) :
  starts_with_slash p = true ->
  normalize p
  = match String.concat "/" (normalizeSegments false (split_slash p) []) with
    | EmptyString => "/"
    | body => String "/" (if ends_with_slash p then body ++ "/" else body)
    end.
Proof.
  intros H. destruct p as [|c r]; [discriminate H|].
  unfold normalize. rewrite H. cbn [negb].
  destruct (String.concat "/" _); [reflexivity|].
  destruct (ends_with_slash (String c r)); reflexivity.
Qed.

Lemma segments_below_tmp (x file : string) :
  (String.eqb x "" || String.eqb x "." || String.eqb x "..")%bool = false ->
  (String.eqb file "" || String.eqb file "." || String.eqb file "..")%bool = false ->
  normalizeSegments false [""; "tmp"; ".."; x; file] [] = [x; file].
Proof.
  intros Hx Hf.
  apply orb_false_elim in Hx as [Hx12 Hx3]. apply orb_false_elim in Hx12 as [Hx1 Hx2].
  apply orb_false_elim in Hf as [Hf12 Hf3]. apply orb_false_elim in Hf12 as [Hf1 Hf2].
  cbn. rewrite Hx1, Hx2, Hx3. cbn. rewrite Hf1, Hf2, Hf3. reflexivity.
Qed.

Lemma normalize_above_tmp (x file : string) :
  split_slash x = [x] ->
  (String.eqb x "" || String.eqb x "." || String.eqb x "..")%bool = false ->
  split_slash file = [file] ->
  (String.eqb file "" || String.eqb file "." || String.eqb file "..")%bool = false ->
  normalize ("/tmp/../" ++ x ++ "/" ++ file) = "/" ++ x ++ "/" ++ file.
Proof.
  intros Hsx Hkx Hsf Hkf.
  assert (Hne : file <> "") by (intros ->; discriminate Hkf).
  assert (Hsplit : split_slash ("/tmp/../" ++ x ++ "/" ++ file) = [""; "tmp"; ".."; x; file]).
  { change ("/tmp/../" ++ x ++ "/" ++ file)
      with ("" ++ "/" ++ ("tmp" ++ "/" ++ (".." ++ "/" ++ (x ++ "/" ++ file)))).
    rewrite !split_slash_app, Hsx, Hsf. reflexivity. }
  assert (Hend : ends_with_slash ("/tmp/../" ++ x ++ "/" ++ file) = false).
  { rewrite <- !append_assoc. rewrite ends_with_slash_app by exact Hne.
    destruct (ends_with_slash file) eqn:E; [|reflexivity].
    apply ends_with_slash_split in E as (h & t & u & E). congruence. }
  rewrite normalize_absolute by reflexivity.
  rewrite Hsplit, Hend, segments_below_tmp by assumption.
  cbn [String.concat]. destruct x; reflexivity.
Qed.

(** Property X1.  A run that sends a 200 response returns normally and has done, in this
    order and nothing else: create the working directory, download, stat
    the input, probe, convert, stat the audio, upload, sign, respond,
    remove the working directory.  The response reports the two sizes
    [statSync] returned, the probed duration, the signed URL, and as
    elapsed time the third clock reading minus the first; the URL was
    requested to expire 3600000 ms after the second clock reading. *)
Theorem success_response_tells_the_whole_run w body fs0 t0 c s' b200 :
  extract_audio_handler w body (start fs0 t0) = (c, s') ->
  In (ERespond 200 b200) (trace s') ->
  c = Normal tt /\
  exists fileId id f written args inputSize audioSize url,
    request_fileId body = Some fileId /\
    ToString w fileId = Ok id /\
    request_format body = Ok f /\
    statSync_size w (inputPath_of id) = Ok inputSize /\
    statSync_size w (audioPath_of id f) = Ok audioSize /\
    getSignedUrl w (bucket_name w) (destination_of id f)
                 (Date_now w (S t0) + 3600000)%float = Normal url /\
    b200 = success_body w fileId id f url inputSize audioSize
                        (probed_duration w (inputPath_of id))
                        (Date_now w (S (S t0)) - Date_now w t0)%float /\
    trace s'
    = [ EMkdir (workDir_of id);
        EDriveGet fileId;
        EPipe (inputPath_of id) written;
        EStat (inputPath_of id);
        EExecShell (ffprobe_command (inputPath_of id));
        EExecFile "ffmpeg" args;
        EStat (audioPath_of id f);
        EUpload (bucket_name w) (audioPath_of id f) (destination_of id f);
        ESign (bucket_name w) (destination_of id f) (Date_now w (S t0) + 3600000)%float;
        ERespond 200 b200;
        ERm (workDir_of id) ].
Proof.
  intros H Hin. unfold_m H.
  destruct (prop (or_else body (JObj [])) "fileId") as [j|] eqn:Ej; unfold_m H.
  all: repeat step H.
  all: apply pair_inj in H as [<- <-]; cbv beta iota delta [trace fs app] in *.
  all: in_trace Hin.
  all: try (cbn in *; discriminate).
  all: apply ERespond_inj in Hin as [_ <-].
  all: split; [reflexivity|].
  all: exists j; do 7 eexists.
  all: split; [exact Ej|]. 
  all: split; [eassumption|]. 
  all: split; [eassumption|].
  all: split; [eassumption|].
  all: split; [eassumption|].
  all: split; [eassumption|].
  all: split; reflexivity.
Qed.

(** The statement above at an example. *)
Lemma success_response_tells_the_whole_run_witness :
  exists b200,
    In (ERespond 200 b200) (trace (snd Scenario.plain_run)) /\
    fst Scenario.plain_run = Normal tt.
Proof.
  unfold Scenario.plain_run.
  eexists.
  assert (Hin : In (ERespond 200 _) (trace (snd (extract_audio_handler Example.world Scenario.plain_request (start [] 0)))))
    by (vm_compute; do 9 right; left; reflexivity).
  split; [exact Hin|].
  exact (proj1 (success_response_tells_the_whole_run Example.world Scenario.plain_request
                  [] 0 _ _ _ (surjective_pairing _) Hin)).
Defined.

(** Property X2.  The handler never sends two responses, and it returns normally exactly
    when it has sent one. *)
Theorem one_response_exactly_when_returning w body fs0 t0 :
  let run := extract_audio_handler w body (start fs0 t0) in
  List.length (responses (trace (snd run))) <= 1 /\
  (fst run = Normal tt <-> List.length (responses (trace (snd run))) = 1).
Proof.
  cbv zeta. destruct (extract_audio_handler w body (start fs0 t0)) as [c s'] eqn:H.
  cbn [fst snd]. unfold_m H. repeat step H.
  all: apply pair_inj in H as [<- <-]; cbv beta iota delta [trace fs app] in *.
  all: cbn [responses List.length].
  all: split; [lia|]; split; intros E; first [reflexivity | discriminate E | lia | idtac].
  all: repeat match goal with u : unit |- _ => destruct u end; try reflexivity.
Qed.

(** Property X3.  Every response is one of three: 200 with a member [audioUrl] and no
    member [error]; 400 with the body [{error: "Missing fileId"}]; 500 with
    a body that holds an [error] message only. *)
Theorem response_status_matches_body w body fs0 t0 c s' status b :
  extract_audio_handler w body (start fs0 t0) = (c, s') ->
  In (ERespond status b) (trace s') ->
  (status = 200 /\ prop b "error" = None /\ exists url, prop b "audioUrl" = Some (JStr url)) \/
  (status = 400 /\ b = error_body "Missing fileId") \/
  (status = 500 /\ exists msg, b = error_body msg).
Proof.
  intros H Hin. pose proof (handler_emits _ _ _ _ _ _ H) as Hall.
  rewrite Forall_forall in Hall.
  destruct (Hall _ Hin) as [E|[E|(j & id & f & x & r & ch & _ & _ & _ & _ & _ & _ & Hem)]].
  - apply ERespond_inj in E as [-> ->]. right. left. split; reflexivity.
  - apply ERespond_inj in E as [-> ->]. right. right. split; [reflexivity|]. eauto.
  - apply emitted_respond in Hem
      as [(-> & url & i & a & d & el & ->) | (-> & e & ->)].
    + left. split; [reflexivity|]. split; [reflexivity|]. exists url. reflexivity.
    + right. right. split; [reflexivity|]. eauto.
Qed.

(** The statement above at an example. *)
Lemma response_status_matches_body_witness :
  exists b,
    In (ERespond 200 b) (trace (snd Scenario.plain_run)) /\
    ((200 = 200 /\ prop b "error" = None /\ exists url, prop b "audioUrl" = Some (JStr url)) \/
     (200 = 400 /\ b = error_body "Missing fileId") \/
     (200 = 500 /\ exists msg, b = error_body msg)).
Proof.
  unfold Scenario.plain_run.
  eexists.
  assert (Hin : In (ERespond 200 _) (trace (snd (extract_audio_handler Example.world Scenario.plain_request (start [] 0)))))
    by (vm_compute; do 9 right; left; reflexivity).
  split; [exact Hin|].
  exact (response_status_matches_body Example.world Scenario.plain_request
           [] 0 _ _ _ _ (surjective_pairing _) Hin).
Defined.

(** Property X4.  The handler throws only while it reads the body (format, a numeric
    option, or the text of the file identifier), and then nothing has
    happened: the trace is empty and no path was created.  It stays pending
    only while one of the four promises it awaits does not settle: the
    Drive request, the piped download, the upload, or the signing of the
    URL.  The call it waits for is then the last of the trace, and the
    handler has neither responded nor removed anything. *)
Theorem abnormal_ends_of_the_handler w body fs0 t0 :
  let run := extract_audio_handler w body (start fs0 t0) in
  match fst run with
  | Normal _ => True
  | Throw e =>
      trace (snd run) = [] /\ fs (snd run) = fs0 /\
      (request_format body = Err e \/
       request_number w body "bitrateK" 32 = Err e \/
       request_number w body "sampleRate" 16000 = Err e \/
       request_number w body "channels" 1 = Err e \/
       exists fileId, request_fileId body = Some fileId /\ ToString w fileId = Err e)
  | Pending =>
      exists fileId id f,
        request_fileId body = Some fileId /\ ToString w fileId = Ok id /\
        request_format body = Ok f /\
        responses (trace (snd run)) = [] /\
        (forall p, ~ In (ERm p) (trace (snd run))) /\
        ((drive_files_get w fileId = Pending /\
          trace (snd run) = [EMkdir (workDir_of id); EDriveGet fileId]) \/
         (exists script written,
             drive_files_get w fileId = Normal script /\
             run_pipe download_listeners script true "" = (Pending, written) /\
             trace (snd run)
             = [EMkdir (workDir_of id); EDriveGet fileId; EPipe (inputPath_of id) written]) \/
         (exists pre,
             bucket_upload w (bucket_name w) (audioPath_of id f) (destination_of id f)
             = Pending /\
             trace (snd run)
             = (pre ++ [EUpload (bucket_name w) (audioPath_of id f)
                                (destination_of id f)])%list) \/
         (exists pre,
             getSignedUrl w (bucket_name w) (destination_of id f)
                          (Date_now w (S t0) + 3600000)%float
             = Pending /\
             trace (snd run)
             = (pre ++ [ESign (bucket_name w) (destination_of id f)
                              (Date_now w (S t0) + 3600000)%float])%list))
  end.
Proof.
  cbv zeta. unfold request_format, request_number, request_fileId.
  destruct (extract_audio_handler w body (start fs0 t0)) as [c s'] eqn:H.
  cbn [fst snd]. unfold_m H.
  destruct (prop (or_else body (JObj [])) "fileId") as [j|] eqn:Ej; unfold_m H.
  all: repeat step H.
  all: apply pair_inj in H as [<- <-]; cbv beta iota delta [trace fs app] in *.
  all: try exact I.
  all: try (cbn in *; discriminate).
  all: try (split; [reflexivity|]; split; [reflexivity|]; tauto).
  all: try (split; [reflexivity|]; split; [reflexivity|];
            do 4 right; exists j; split; [reflexivity | assumption]).
  all: exists j; do 2 eexists; split; [reflexivity|]; split; [eassumption|];
       split; [reflexivity|]; split; [reflexivity|];
       split; [intros p Hin; in_trace Hin|].
  all: first
         [ left; split; [eassumption | reflexivity]
         | right; left; do 2 eexists; split; [eassumption|];
           split; [eassumption | reflexivity]
         | right; right; left; eexists [_; _; _; _; _; _; _];
           split; [eassumption | reflexivity]
         | right; right; right; eexists [_; _; _; _; _; _; _; _];
           split; [eassumption | reflexivity] ].
Qed.

(** The statement of [validation_precedes_effects] (X5) at a request without
    file identifier. *)
Lemma validation_precedes_effects_witness :
  let body := Example.request [("format", JStr "mp3")] in
  request_format body = Ok "mp3" /\
  truthy (request_fileId body) = false /\
  extract_audio_handler Example.world body (start [] 0)
  = (Normal tt, mkState [] 1 [ERespond 400 (error_body "Missing fileId")]).
Proof.
  cbv zeta. split; [reflexivity|]. split; [reflexivity|].
  exact (proj1 (validation_precedes_effects Example.world
                  (Example.request [("format", JStr "mp3")]) [] 0 "mp3" 32 16000 1
                  eq_refl eq_refl eq_refl eq_refl) eq_refl).
Defined.

(** Property X6.  Whenever an error is caught and logged, the handler returns normally,
    and what follows the log entry is the 500 response carrying that
    error's message and then the cleanup; nothing was answered before. *)
Theorem every_failure_is_answered_with_its_message w body fs0 t0 c s' e :
  extract_audio_handler w body (start fs0 t0) = (c, s') ->
  In (ELogError e) (trace s') ->
  c = Normal tt /\
  exists pre d,
    trace s' = (pre ++ [ELogError e; ERespond 500 (error_body (error_text e)); ERm d])%list /\
    responses pre = [].
Proof.
  intros H Hin. unfold_m H. repeat step H.
  all: apply pair_inj in H as [<- <-]; cbv beta iota delta [trace fs app] in *.
  all: in_trace Hin.
  all: apply ELogError_inj in Hin; subst e.
  all: split; [reflexivity|].
  all: suffix_of_three.
Qed.

(** The statement above at an example. *)
Lemma every_failure_is_answered_with_its_message_witness :
  let run := extract_audio_handler Scenario.missing_file_world Scenario.plain_request
                                   (start [] 0) in
  In (ELogError (Error "File not found: abc123")) (trace (snd run)) /\
  fst run = Normal tt.
Proof.
  cbv zeta.
  assert (Hin : In (ELogError (Error "File not found: abc123"))
                   (trace (snd (extract_audio_handler Scenario.missing_file_world
                                  Scenario.plain_request (start [] 0)))))
    by (vm_compute; do 2 right; left; reflexivity).
  split; [exact Hin|].
  exact (proj1 (every_failure_is_answered_with_its_message Scenario.missing_file_world
                  Scenario.plain_request [] 0 _ _ _ (surjective_pairing _) Hin)).
Defined.





(** Property X9.  A subprocess is spawned only after the download resolved: the source
    stream ended, every chunk it delivered was written to the input file,
    and the stat of that file succeeded.  The probe command names that file
    and the conversion tool gets it as its input argument. *)
Theorem tools_run_only_on_a_complete_download w body fs0 t0 c s' ev :
  extract_audio_handler w body (start fs0 t0) = (c, s') ->
  In ev (trace s') -> is_spawn ev = true ->
  exists fileId chunks rest inputPath size,
    In (EDriveGet fileId) (trace s') /\
    drive_files_get w fileId = Normal (map SrcData chunks ++ SrcEnd :: rest)%list /\
    In (EPipe inputPath (String.concat "" chunks)) (trace s') /\
    statSync_size w inputPath = Ok size /\
    (forall command, ev = EExecShell command -> command = ffprobe_command inputPath) /\
    (forall file args, ev = EExecFile file args -> nth 2 args "" = inputPath).
Proof.
  intros H Hin Hsp. unfold_m H. repeat step H.
  all: apply pair_inj in H as [<- <-]; cbv beta iota delta [trace fs app] in *.
  all: cbn [In] in Hin;
       repeat (destruct Hin as [Hin|Hin]; [try (subst ev; discriminate Hsp)|]);
       try contradiction.
  all: match goal with
       | Hp : run_pipe download_listeners _ true "" = (Normal _, _) |- _ =>
           apply run_pipe_outcomes in Hp as (chunks & rest & -> & ->)
       end.
  all: eexists _, chunks, rest, _, _.
  all: split; [right; left; reflexivity|].
  all: split; [eassumption|].
  all: split; [right; right; left; reflexivity|].
  all: split; [eassumption|].
  all: subst ev; split;
       [intros command E; first [discriminate E | apply EExecShell_inj in E; now subst command]
       | intros file args E; try discriminate E].
  all: apply EExecFile_inj in E as [_ <-].
  all: match goal with
       | Ha : extractAudio_args _ _ _ _ _ _ _ = Ok _ |- _ =>
           unfold extractAudio_args in Ha;
           repeat match type of Ha with
                  | context [if ?x then _ else _] => destruct x
                  end;
           try discriminate Ha;
           apply (f_equal (fun x => match x with Ok l => nth 2 l "" | Err _ => "" end)) in Ha;
           cbn [nth app] in Ha; now rewrite <- Ha
       end.
Qed.

(** The statement above at an example. *)
Lemma tools_run_only_on_a_complete_download_witness :
  In (EExecShell (ffprobe_command "/tmp/abc123-audio/input.mp4"))
     (trace (snd Scenario.plain_run)) /\
  exists fileId chunks rest inputPath,
    drive_files_get Example.world fileId = Normal (map SrcData chunks ++ SrcEnd :: rest)%list /\
    In (EPipe inputPath (String.concat "" chunks)) (trace (snd Scenario.plain_run)).
Proof.
  unfold Scenario.plain_run.
  assert (Hin : In (EExecShell (ffprobe_command "/tmp/abc123-audio/input.mp4"))
                   (trace (snd (extract_audio_handler Example.world Scenario.plain_request (start [] 0)))))
    by (vm_compute; do 4 right; left; reflexivity).
  split; [exact Hin|].
  destruct (tools_run_only_on_a_complete_download Example.world Scenario.plain_request
              [] 0 _ _ _ (surjective_pairing _) Hin eq_refl)
    as (fileId & chunks & rest & inputPath & size & _ & H1 & H2 & _).
  exists fileId, chunks, rest, inputPath. split; [exact H1 | exact H2].
Defined.

(** Property X10.  A file is uploaded only after ffmpeg ran successfully with that file as
    its output argument and the stat of that file succeeded. *)
Theorem nothing_is_published_unless_converted w body fs0 t0 c s' bucket localPath destination :
  extract_audio_handler w body (start fs0 t0) = (c, s') ->
  In (EUpload bucket localPath destination) (trace s') ->
  exists args out size,
    In (EExecFile "ffmpeg" args) (trace s') /\
    exec_outcome (execFileSync w "ffmpeg" args) = Ok out /\
    last args "" = localPath /\
    statSync_size w localPath = Ok size.
Proof.
  intros H Hin. unfold_m H. repeat step H.
  all: apply pair_inj in H as [<- <-]; cbv beta iota delta [trace fs app] in *.
  all: in_trace Hin.
  all: apply EUpload_inj in Hin as (<- & <- & <-).
  all: do 3 eexists.
  all: split; [do 5 right; left; reflexivity|].
  all: split; [eassumption|].
  all: split; [eapply extractAudio_args_last; eassumption | eassumption].
Qed.

(** The statement above at an example. *)
Lemma nothing_is_published_unless_converted_witness :
  In (EUpload "media" "/tmp/abc123-audio/audio.ogg" "audio/abc123.ogg")
     (trace (snd Scenario.plain_run)) /\
  exists args out size,
    In (EExecFile "ffmpeg" args) (trace (snd Scenario.plain_run)) /\
    exec_outcome (execFileSync Example.world "ffmpeg" args) = Ok out /\
    last args "" = "/tmp/abc123-audio/audio.ogg" /\
    statSync_size Example.world "/tmp/abc123-audio/audio.ogg" = Ok size.
Proof.
  unfold Scenario.plain_run.
  assert (Hin : In (EUpload "media" "/tmp/abc123-audio/audio.ogg" "audio/abc123.ogg")
                   (trace (snd (extract_audio_handler Example.world Scenario.plain_request (start [] 0)))))
    by (vm_compute; do 7 right; left; reflexivity).
  split; [exact Hin|].
  exact (nothing_is_published_unless_converted Example.world Scenario.plain_request
           [] 0 _ _ _ _ _ (surjective_pairing _) Hin).
Defined.

(** Property X11.  The only path the handler ever removes is the working directory derived
    from the file identifier, and only in a run that asked to create it. *)
Theorem only_the_working_directory_is_removed w body fs0 t0 c s' p :
  extract_audio_handler w body (start fs0 t0) = (c, s') ->
  In (ERm p) (trace s') ->
  In (EMkdir p) (trace s') /\
  (forall q, In (ERm q) (trace s') -> q = p) /\
  exists fileId id,
    request_fileId body = Some fileId /\ ToString w fileId = Ok id /\ p = workDir_of id.
Proof.
  intros H Hin. unfold_m H.
  destruct (prop (or_else body (JObj [])) "fileId") as [j|] eqn:Ej; unfold_m H.
  all: repeat step H.
  all: apply pair_inj in H as [<- <-]; cbv beta iota delta [trace fs app] in *.
  all: in_trace Hin.
  all: try (cbn in *; discriminate).
  all: apply ERm_inj in Hin; subst p.
  all: split; [left; reflexivity|].
  all: split; [intros q Hq; in_trace Hq; apply ERm_inj in Hq; now subst q|].
  all: exists j; eexists; split; [exact Ej|]; split; [eassumption | reflexivity].
Qed.

(** The statement above at an example. *)
Lemma only_the_working_directory_is_removed_witness :
  In (ERm "/tmp/abc123-audio") (trace (snd Scenario.plain_run)) /\
  In (EMkdir "/tmp/abc123-audio") (trace (snd Scenario.plain_run)).
Proof.
  unfold Scenario.plain_run.
  assert (Hin : In (ERm "/tmp/abc123-audio") (trace (snd (extract_audio_handler Example.world Scenario.plain_request (start [] 0)))))
    by (vm_compute; do 10 right; left; reflexivity).
  split; [exact Hin|].
  exact (proj1 (only_the_working_directory_is_removed Example.world Scenario.plain_request
                  [] 0 _ _ _ (surjective_pairing _) Hin)).
Defined.

(** Property X12.  A member of the body other than fileId, format, bitrateK, sampleRate
    and channels has no effect on the run. *)
Theorem unknown_members_are_ignored w m k v s :
  ~ In k read_members ->
  extract_audio_handler w (Some (JObj (m ++ [(k, v)]))) s
  = extract_audio_handler w (Some (JObj m)) s.
Proof.
  intros Hk.
  assert (Hget : forall name, In name read_members ->
                   get name (m ++ [(k, v)]) = get name m).
  { intros name Hn. rewrite get_app_last.
    destruct (String.eqb k name) eqn:E; [|reflexivity].
    apply String.eqb_eq in E. subst name. contradiction. }
  apply handler_extensional.
  - unfold request_fileId. cbn [or_else truthy_json prop]. apply Hget. now left.
  - unfold request_format. cbn [opt_prop prop]. rewrite Hget; [reflexivity|]. right. now left.
  - unfold request_number. cbn [opt_prop prop]. rewrite Hget; [reflexivity|]. do 2 right. now left.
  - unfold request_number. cbn [opt_prop prop]. rewrite Hget; [reflexivity|]. do 3 right. now left.
  - unfold request_number. cbn [opt_prop prop]. rewrite Hget; [reflexivity|]. do 4 right. now left.
Qed.

(** The statement above at an example. *)
Lemma unknown_members_are_ignored_witness :
  ~ In "note" read_members /\
  forall s,
    extract_audio_handler Example.world
      (Some (JObj ([("fileId", JStr "abc123")] ++ [("note", JStr "urgent")]))) s
    = extract_audio_handler Example.world (Some (JObj [("fileId", JStr "abc123")])) s.
Proof.
  assert (Hk : ~ In "note" read_members)
    by (cbn; intros H; repeat (destruct H as [H|H]; [discriminate H|]); exact H).
  split; [exact Hk|].
  intros s. exact (unknown_members_are_ignored Example.world _ "note" _ s Hk).
Defined.

(** Property X13.  The file identifier is not confined to a single path segment: for the
    identifier [../<name>], with [name] free of slashes, [path.join]
    resolves the input and audio files to [/<name>-audio/...], outside
    [/tmp]. *)
Theorem working_directory_is_not_confined_to_tmp (name : string) :
  split_slash name = [name] ->
  inputPath_of ("../" ++ name) = "/" ++ (name ++ "-audio") ++ "/" ++ "input.mp4" /\
  forall f, audioPath_of ("../" ++ name) f
            = "/" ++ (name ++ "-audio") ++ "/" ++ "audio." ++ audioExt_of f.
Proof.
  intros Hname.
  assert (Hx : split_slash (name ++ "-audio") = [name ++ "-audio"])
    by (apply split_slash_plain_app; [exact Hname | reflexivity]).
  assert (Hkeep : (String.eqb (name ++ "-audio") "" || String.eqb (name ++ "-audio") "."
                   || String.eqb (name ++ "-audio") "..")%bool = false).
  { apply long_segment_is_kept. rewrite length_append. cbn. lia. }
  split.
  - change (inputPath_of ("../" ++ name))
      with (normalize ("/tmp/../" ++ (name ++ "-audio") ++ "/" ++ "input.mp4")).
    apply normalize_above_tmp; [exact Hx | exact Hkeep | reflexivity | reflexivity].
  - intros f.
    change (audioPath_of ("../" ++ name) f)
      with (normalize ("/tmp/../" ++ (name ++ "-audio") ++ "/" ++ "audio." ++ audioExt_of f)).
    apply normalize_above_tmp; [exact Hx | exact Hkeep | |];
      unfold audioExt_of; destruct (String.eqb f "mp3"); try reflexivity;
      destruct (String.eqb f "wav"); reflexivity.
Qed.

(** The statement above at an example. *)
Lemma working_directory_is_not_confined_to_tmp_witness :
  split_slash "etc" = ["etc"] /\
  inputPath_of "../etc" = "/etc-audio/input.mp4".
Proof.
  split; [reflexivity|].
  exact (proj1 (working_directory_is_not_confined_to_tmp "etc" eq_refl)).
Defined.

(** Property X15.  [downloadDriveFile] resolves only when the source stream has ended,
    and then what was written is the concatenation of all chunks delivered;
    it rejects either with the rejection of the Drive request, before any
    file is created, or with an error of the destination stream.  It stays
    pending either because the Drive request never settles (no file is
    created), or because the source stream, without any error of the
    destination, fails or simply never ends: then the file holds the
    chunks delivered until then. *)
Theorem downloadDriveFile_outcomes w fileId outputPath s :
  let run := downloadDriveFile w fileId outputPath s in
  match fst run with
  | Normal _ =>
      exists chunks rest,
        drive_files_get w fileId = Normal (map SrcData chunks ++ SrcEnd :: rest)%list /\
        trace (snd run)
        = (trace s ++ [EDriveGet fileId; EPipe outputPath (String.concat "" chunks)])%list
  | Throw e =>
      (drive_files_get w fileId = Throw e /\ fs (snd run) = fs s /\
       trace (snd run) = (trace s ++ [EDriveGet fileId])%list) \/
      (exists script, drive_files_get w fileId = Normal script /\ In (DestError e) script)
  | Pending =>
      (drive_files_get w fileId = Pending /\ fs (snd run) = fs s /\
       trace (snd run) = (trace s ++ [EDriveGet fileId])%list) \/
      (exists script chunks,
          drive_files_get w fileId = Normal script /\
          (script = map SrcData chunks \/
           exists e rest, script = (map SrcData chunks ++ SrcError e :: rest)%list) /\
          (forall e, ~ In (DestError e) script) /\
          fs (snd run) = (fs s ++ [outputPath])%list /\
          trace (snd run)
          = (trace s ++ [EDriveGet fileId; EPipe outputPath (String.concat "" chunks)])%list)
  end.
Proof.
  destruct s as [paths t tr]. cbv zeta.
  unfold downloadDriveFile, bind, await, emit, create, ret, throw.
  cbv beta iota zeta delta [fs ticks trace].
  destruct (drive_files_get w fileId) as [script|e|] eqn:Eg; cbn [fst snd fs trace].
  2:{ left. repeat split. }
  2:{ left. repeat split. }
  destruct (run_pipe download_listeners script true "") as [c written] eqn:Ep.
  pose proof (run_pipe_outcomes _ _ _ _ Ep) as Hp.
  destruct c as [[]|e|]; cbn [fst snd fs trace].
  - destruct Hp as (chunks & rest & -> & ->). exists chunks, rest.
    split; [reflexivity|]. now rewrite <- app_assoc.
  - right. exists script. split; [reflexivity | exact Hp].
  - right. destruct (run_pipe_pending _ _ _ Ep) as (chunks & Hs & Hd & ->).
    exists script, chunks. split; [reflexivity|]. split; [exact Hs|]. split; [exact Hd|].
    split; [reflexivity|]. now rewrite <- app_assoc.
Qed.

(** Property X16.  The first revision never throws: a run that ends has sent exactly one
    response, whatever the body.  It never removes the working directory,
    and it runs the conversion tool through the shell, never with an
    argument vector. *)
Theorem legacy_answers_once_and_leaves_the_directory w body fs0 t0 :
  let run := Legacy.extract_audio_handler w body (start fs0 t0) in
  match fst run with
  | Normal _ => List.length (responses (trace (snd run))) = 1
  | Throw _ => False
  | Pending => responses (trace (snd run)) = []
  end /\
  (forall p, ~ In (ERm p) (trace (snd run))) /\
  (forall file args, ~ In (EExecFile file args) (trace (snd run))) /\
  (forall command,
      In (EExecShell command) (trace (snd run)) ->
      exists id,
        command = Legacy.ffmpeg_command ("/tmp/" ++ id ++ "/input.mp4")
                                        ("/tmp/" ++ id ++ "/audio.ogg")).
Proof.
  cbv zeta. destruct (Legacy.extract_audio_handler w body (start fs0 t0)) as [c s'] eqn:H.
  cbn [fst snd]. unfold_legacy H. repeat step_legacy H.
  all: apply pair_inj in H as [<- <-]; cbv beta iota delta [trace fs app] in *.
  all: cbn [responses List.length].
  all: split; [reflexivity|].
  all: split; [intros p Hin; in_trace Hin|].
  all: split; [intros file args Hin; in_trace Hin|].
  all: intros command Hin; in_trace Hin.
  all: apply EExecShell_inj in Hin; subst command; eexists; reflexivity.
Qed.

(** Property X17.  A run that asked to create the working directory [d] never throws.
    Either it returns: then it has sent exactly one response, and the last
    thing it did, after responding, is to remove [d]; when the removal
    succeeds no path under [d] is left.  Or it waits for ever for a
    promise: then it has sent no response, has removed nothing, and [d]
    still exists.  Whatever [fs.rmSync] does, completion and trace (so the
    response) are the same. *)
Theorem directory_is_removed_exactly_when_answered w body fs0 t0 c s' d :
  extract_audio_handler w body (start fs0 t0) = (c, s') ->
  In (EMkdir d) (trace s') ->
  (forall rm c2 s2,
      extract_audio_handler (with_rmSync w rm) body (start fs0 t0) = (c2, s2) ->
      c2 = c /\ trace s2 = trace s') /\
  match c with
  | Normal _ =>
      (exists pre status b,
          trace s' = (pre ++ [ERespond status b; ERm d])%list /\ responses pre = []) /\
      (rmSync w d = Ok tt -> forall q, In q (fs s') -> under w d q = false)
  | Throw _ => False
  | Pending =>
      responses (trace s') = [] /\
      (forall p, ~ In (ERm p) (trace s')) /\
      In d (fs s')
  end.
Proof.
  intros H Hin.
  split; [intros rm c2 s2; apply handler_ignores_rm_outcome; exact H|].
  cut (match c with
       | Normal _ =>
           ends_respond_rm d (trace s') /\
           (rmSync w d = Ok tt -> forall q, In q (fs s') -> under w d q = false)
       | Throw _ => False
       | Pending =>
           responses (trace s') = [] /\
           (forall p, ~ In (ERm p) (trace s')) /\
           In d (fs s')
       end).
  { destruct c as [u|e|]; [|exact (fun F => F)|exact (fun F => F)].
    intros [A B]. split; [now apply ends_respond_rm_split | exact B]. }
  unfold_m H. repeat step H.
  all: apply pair_inj in H as [<- <-]; cbv beta iota delta [trace fs app] in *.
  all: try (exfalso; exact Hin).
  all: in_trace Hin.
  all: apply EMkdir_inj in Hin; subst d.
  all: first
         [ split; [exact eq_refl|]; intros Hok; now apply paths_after_rm_clean
         | split; [reflexivity|]; split; [intros p Hp; in_trace Hp|];
           rewrite ?in_app_iff; cbn [In]; tauto ].
Qed.

(** The statement above where removing the directory fails with EBUSY. *)
Lemma directory_is_removed_exactly_when_answered_witness :
  In (EMkdir "/tmp/abc123-audio")
     (trace (snd (extract_audio_handler Example.stuck_rm_world Scenario.plain_request
                                        (start [] 0)))) /\
  forall rm c2 s2,
    extract_audio_handler (with_rmSync Example.stuck_rm_world rm) Scenario.plain_request
                          (start [] 0) = (c2, s2) ->
    c2 = fst (extract_audio_handler Example.stuck_rm_world Scenario.plain_request
                                    (start [] 0)).
Proof.
  assert (Hin : In (EMkdir "/tmp/abc123-audio")
                   (trace (snd (extract_audio_handler Example.stuck_rm_world
                                  Scenario.plain_request (start [] 0)))))
    by (vm_compute; left; reflexivity).
  split; [exact Hin|].
  intros rm c2 s2 H2.
  exact (proj1 (proj1 (directory_is_removed_exactly_when_answered
                         Example.stuck_rm_world Scenario.plain_request [] 0 _ _
                         "/tmp/abc123-audio" (surjective_pairing _) Hin) rm c2 s2 H2)).
Defined.
